(** * The request guard of the demonstration service (security middleware)

  A shallow embedding of [securityMiddleware], [getObjectDepth] and
  [sanitizeObject], together with the fragment of the JavaScript runtime
  they rely on: strings as sequences of UTF-16 code units, [parseInt],
  [String.prototype.includes], regular-expression replacement with the
  [g] and [i] flags, [for ... in] over own enumerable properties, and
  the [TypeError] raised by calling a property that is not a function. *)

From Stdlib Require Import ZArith NArith List Ascii String Bool Lia PrimFloat.
From stdpp Require Import gmap strings pretty.

Local Open Scope N_scope.

(** ** JavaScript strings *)

Module JSString.

(** A string is a finite sequence of 16-bit code units; [length] and
    [substring] count code units, and a regular expression without the
    [u] flag matches code unit by code unit. *)
Definition code_unit : Type := N.
Definition jsstring : Type := list code_unit.

(** The string written as an ASCII literal in the source. *)
Definition lit (s : string) : jsstring :=
  map N_of_ascii (list_ascii_of_string s).

Definition between (lo hi c : code_unit) : bool := (lo <=? c) && (c <=? hi).

(** WhiteSpace and LineTerminator of ECMAScript: what [parseInt] trims
    and what [\s] matches. *)
Definition isWhiteSpace (c : code_unit) : bool :=
  between 9 13 c || (c =? 32) || (c =? 160) || (c =? 5760)
  || between 8192 8202 c || (c =? 8232) || (c =? 8233) || (c =? 8239)
  || (c =? 8287) || (c =? 12288) || (c =? 65279).

(** The word characters of [\w] and [\b]: [A-Za-z0-9_]. *)
Definition isWordChar (c : code_unit) : bool :=
  between 97 122 c || between 65 90 c || between 48 57 c || (c =? 95).

(** Canonicalize of a pattern without [u]: the simple upper-case
    mapping, except that a code unit of 128 or more is never mapped
    below 128.  The patterns of this program only contain ASCII
    characters, and a code unit c matches the ASCII pattern character p
    when their canonical forms agree; a non-ASCII c never canonicalizes
    to an ASCII value, so mapping the ASCII letters alone decides it. *)
Definition canonicalize (c : code_unit) : code_unit :=
  if between 97 122 c then c - 32 else c.

Definition eq_ignoreCase (p c : code_unit) : bool :=
  canonicalize p =? canonicalize c.

Fixpoint startsWith (s p : jsstring) : bool :=
  match p, s with
  | [], _ => true
  | a :: p', b :: s' => (a =? b) && startsWith s' p'
  | _ :: _, [] => false
  end.

(** [s.includes(p)] *)
Fixpoint includes (s p : jsstring) : bool :=
  startsWith s p ||
  match s with
  | [] => false
  | _ :: s' => includes s' p
  end.

(** [s.length] *)
Definition jslength (s : jsstring) : N := N.of_nat (length s).

(** [s.substring(0, n)] for a non-negative integer n *)
Definition substring0 (s : jsstring) (n : N) : jsstring := firstn (N.to_nat n) s.

(** Truthiness of a string: the empty string is falsy. *)
Definition truthy (s : jsstring) : bool :=
  match s with [] => false | _ :: _ => true end.

(** [h || d] where h is a header value or undefined. *)
Definition orDefault (h : option jsstring) (d : jsstring) : jsstring :=
  match h with
  | Some s => if truthy s then s else d
  | None => d
  end.

End JSString.
Export JSString.

(** ** Numbers produced by [parseInt] *)

Module JSNumber.

(** The result of [parseInt] is NaN or an integral double.  The only use
    the middleware makes of it is the comparison with 1048576; rounding
    to a double is monotone and fixes every integer up to 2^53, so the
    comparison of the double agrees with the comparison of the exact
    integer, which is what [Int] carries. *)
Inductive number : Type :=
| NaN
| Int (z : Z).

(** [a > b]: false when a is NaN. *)
Definition gt (a : number) (b : Z) : bool :=
  match a with
  | NaN => false
  | Int z => (b <? z)%Z
  end.

Fixpoint trimStart (s : jsstring) : jsstring :=
  match s with
  | c :: s' => if isWhiteSpace c then trimStart s' else s
  | [] => []
  end.

Definition digitValue (c : code_unit) : option N :=
  if between 48 57 c then Some (c - 48)
  else if between 97 122 c then Some (c - 87)
  else if between 65 90 c then Some (c - 55)
  else None.

Definition radixDigit (R : N) (c : code_unit) : option N :=
  match digitValue c with
  | Some d => if d <? R then Some d else None
  | None => None
  end.

(** The value of the longest prefix of radix-R digits; [None] when that
    prefix is empty. *)
Fixpoint parseDigits (R : N) (acc : N) (seen : bool) (s : jsstring) : option N :=
  match s with
  | c :: s' =>
      match radixDigit R c with
      | Some d => parseDigits R (acc * R + d) true s'
      | None => if seen then Some acc else None
      end
  | [] => if seen then Some acc else None
  end.

Definition stripSign (s : jsstring) : Z * jsstring :=
  match s with
  | c :: s' =>
      if c =? 45 then ((-1)%Z, s')
      else if c =? 43 then (1%Z, s')
      else (1%Z, s)
  | [] => (1%Z, s)
  end.

Definition stripPrefix (s : jsstring) : N * jsstring :=
  match s with
  | z :: x :: s' =>
      if (z =? 48) && ((x =? 120) || (x =? 88)) then (16, s') else (10, s)
  | _ => (10, s)
  end.

(** [parseInt(string)] with no radix argument.  The integer is the
    exact value of the digits; the program's double equals it up to
    2^53 and is its rounding beyond. *)
Definition parseInt (input : jsstring) : number :=
  let '(sign, s1) := stripSign (trimStart input) in
  let '(R, s2) := stripPrefix s1 in
  match parseDigits R 0 false s2 with
  | None => NaN
  | Some n => Int (sign * Z.of_N n)
  end.

End JSNumber.

(** ** Regular expressions *)

Module RegExp.

(** The constructs the three patterns of [sanitizeObject] use.  A
    literal character and a character class are both [Char] with the
    predicate that decides them; [r+] is [Seq r (Star r)]. *)
Inductive regex : Type :=
| Empty
| Char (p : code_unit -> bool)
| Seq (r1 r2 : regex)
| Star (r : regex)
| NotAhead (r : regex)
| WordBoundary.

(** A position in the input: the code unit before it (for [\b]), what
    remains, and the index. *)
Record cursor : Type := Cursor {
  before : option code_unit;
  remaining : jsstring;
  index : N
}.

Definition isWordAt (c : option code_unit) : bool :=
  match c with
  | Some c => isWordChar c
  | None => false
  end.

(** The greedy repetition of RepeatMatcher, for a step that matches the
    repeated term: one more iteration is tried first, and an iteration
    that consumes nothing is refused; when no further iteration leads to
    a match, the continuation takes over.  Every accepted iteration
    consumes a code unit, so the input that remains bounds the number of
    iterations; [bound] is the recursion argument that counts them. *)
Definition iterate (step : cursor -> (cursor -> option cursor) -> option cursor)
  (k : cursor -> option cursor) : jsstring -> cursor -> option cursor :=
  fix go (bound : jsstring) (x : cursor) {struct bound} : option cursor :=
    match bound with
    | [] => k x
    | _ :: bound' =>
        match step x (fun y => if index x <? index y then go bound' y else None) with
        | Some z => Some z
        | None => k x
        end
    end.

(** The backtracking matcher of the language specification, written
    with continuations: [exec r x k] tries the ways r can match at x in
    priority order and returns the end of the first for which the
    continuation succeeds. *)
Fixpoint exec (r : regex) (x : cursor) (k : cursor -> option cursor)
  {struct r} : option cursor :=
  match r with
  | Empty => k x
  | Char p =>
      match remaining x with
      | c :: s' =>
          if p c then k (Cursor (Some c) s' (index x + 1)) else None
      | [] => None
      end
  | Seq r1 r2 => exec r1 x (fun y => exec r2 y k)
  | Star r1 => iterate (exec r1) k (remaining x) x
  | NotAhead r1 =>
      match exec r1 x Some with
      | Some _ => None
      | None => k x
      end
  | WordBoundary =>
      if xorb (isWordAt (before x)) (isWordAt (head (remaining x)))
      then k x else None
  end.

(** The length of the match of r that starts at x, if there is one. *)
Definition matchAt (r : regex) (x : cursor) : option N :=
  match exec r x Some with
  | Some y => Some (index y - index x)
  | None => None
  end.

(** [s.replace(/r/g, '')], scanning from position x: the leftmost match
    is deleted and the search resumes where it ended (one position
    further after an empty match).  [drop] counts the code units of the
    current match that are still to be deleted. *)
Fixpoint replaceFrom (r : regex) (drop : nat) (bef : option code_unit)
  (i : N) (s : jsstring) {struct s} : jsstring :=
  match s with
  | [] => []
  | c :: s' =>
      match drop with
      | S d => replaceFrom r d (Some c) (i + 1) s'
      | O =>
          match matchAt r (Cursor bef s i) with
          | Some len =>
              match N.to_nat len with
              | S d => replaceFrom r d (Some c) (i + 1) s'
              | O => c :: replaceFrom r 0 (Some c) (i + 1) s'
              end
          | None => c :: replaceFrom r 0 (Some c) (i + 1) s'
          end
      end
  end.

Definition replaceAll (r : regex) (s : jsstring) : jsstring :=
  replaceFrom r 0 None 0 s.

(** A pattern is absent from s when it matches at no position of s. *)
Fixpoint absentFrom (r : regex) (bef : option code_unit) (i : N)
  (s : jsstring) : bool :=
  match s with
  | [] => true
  | c :: s' =>
      match matchAt r (Cursor bef s i) with
      | Some _ => false
      | None => absentFrom r (Some c) (i + 1) s'
      end
  end.

Definition absent (r : regex) (s : jsstring) : bool := absentFrom r None 0 s.

(** The position y lies at or after the position x of the same input. *)
Definition ahead (x y : cursor) : Prop :=
  exists pre : jsstring,
    remaining x = pre ++ remaining y
    /\ index y = index x + N.of_nat (length pre).

(** Pattern text with the [i] flag. *)
Definition literal (s : string) : regex :=
  fold_right (fun a r => Seq (Char (eq_ignoreCase (N_of_ascii a))) r)
             Empty (list_ascii_of_string s).

Fixpoint seq (rs : list regex) : regex :=
  match rs with
  | [] => Empty
  | [r] => r
  | r :: rs' => Seq r (seq rs')
  end.

Definition plus (r : regex) : regex := Seq r (Star r).

Definition notLessThan : regex := Char (fun c => negb (c =? 60)).
Definition lessThan : regex := Char (fun c => c =? 60).
Definition wordChar : regex := Char isWordChar.
Definition whiteSpace : regex := Char isWhiteSpace.

(** The script-block pattern, flags g and i; with its parts spaced out:
    <script \b [^<]* (?: (?!<\/script>) < [^<]* )* <\/script> *)
Definition scriptBlock : regex :=
  seq [ literal "<script"; WordBoundary; Star notLessThan;
        Star (seq [NotAhead (literal "</script>"); lessThan; Star notLessThan]);
        literal "</script>" ].

(** The pattern javascript: with flags g and i. *)
Definition javascriptScheme : regex := literal "javascript:".

(** The inline-handler pattern, flags g and i: on \w+ \s* = *)
Definition inlineHandler : regex :=
  seq [ literal "on"; plus wordChar; Star whiteSpace; Char (fun c => c =? 61) ].

End RegExp.

(** ** Values of a parsed request body *)

Module JSValue.

Unset Elimination Schemes.

(** What a body parser hands to the middleware: a tree without sharing.
    The properties of an object are listed in enumeration order, with
    distinct keys; an array is dense. *)
Inductive value : Type :=
| VUndefined
| VNull
| VBool (b : bool)
| VNumber (x : float)
| VString (s : jsstring)
| VArray (elems : list value)
| VObject (props : list (jsstring * value)).

Set Elimination Schemes.

(** Induction with the hypothesis for every element and property value. *)
Definition value_ind (P : value -> Prop)
  (HUndefined : P VUndefined) (HNull : P VNull)
  (HBool : forall b, P (VBool b)) (HNumber : forall x, P (VNumber x))
  (HString : forall s, P (VString s))
  (HArray : forall elems, Forall P elems -> P (VArray elems))
  (HObject : forall props, Forall (fun kv => P (snd kv)) props -> P (VObject props))
  : forall v, P v :=
  fix go (v : value) : P v :=
    match v with
    | VUndefined => HUndefined
    | VNull => HNull
    | VBool b => HBool b
    | VNumber x => HNumber x
    | VString s => HString s
    | VArray elems =>
        HArray elems
          ((fix all (l : list value) : Forall P l :=
              match l with
              | [] => List.Forall_nil P
              | v' :: l' => List.Forall_cons _ v' l' (go v') (all l')
              end) elems)
    | VObject props =>
        HObject props
          ((fix all (l : list (jsstring * value)) : Forall (fun kv => P (snd kv)) l :=
              match l with
              | [] => List.Forall_nil _
              | kv :: l' => List.Forall_cons _ kv l' (go (snd kv)) (all l')
              end) props)
    end.

(** [typeof v === 'object' && v !== null] *)
Definition isObject (v : value) : bool :=
  match v with
  | VArray _ | VObject _ => true
  | _ => false
  end.

(** The own property with the given key, if any. *)
Fixpoint getOwn (props : list (jsstring * value)) (key : jsstring) : option value :=
  match props with
  | [] => None
  | (k, v) :: props' =>
      if bool_decide (k = key) then Some v else getOwn props' key
  end.

End JSValue.
Export JSValue.

(** ** Completions: normal return or a thrown error *)

Module Completion.

Inductive error : Type :=
| TypeError (message : string)
| RangeError (message : string).

Inductive completion (A : Type) : Type :=
| Normal (a : A)
| Throw (e : error).
Arguments Normal {A} a.
Arguments Throw {A} e.

Definition bind {A B : Type} (c : completion A) (f : A -> completion B) : completion B :=
  match c with
  | Normal a => f a
  | Throw e => Throw e
  end.

End Completion.
Export Completion.

Notation "x <- c ;; k" := (Completion.bind c (fun x => k))
(at level 100, c at next level, right associativity).

(** ** The helpers of the middleware *)

Module Guard.

Import RegExp.

Definition MAX_STRING : N := 10000.

(** The statement sequence applied to a string property: the three
    replacements in order, then the cut at 10000 code units. *)
Definition substitute (s : jsstring) : jsstring :=
  replaceAll inlineHandler (replaceAll javascriptScheme (replaceAll scriptBlock s)).

Definition truncate (s : jsstring) : jsstring :=
  if MAX_STRING <? jslength s then substring0 s MAX_STRING else s.

Definition sanitizeString (s : jsstring) : jsstring := truncate (substitute s).

(** [obj.hasOwnProperty(key)] for a key that [for (const key in obj)]
    has produced.  The method is looked up on obj itself first: an own
    property named hasOwnProperty shadows the one of Object.prototype,
    and since no value of a parsed body is callable the call throws.
    Otherwise the built-in method is reached (the objects of a parsed
    body inherit from Object.prototype, as those of JSON.parse do), and
    it answers true because the keys enumerated over a parsed body are
    its own (Object.prototype and Array.prototype are taken to have no
    enumerable property).  The assignments of [sanitizeObject] change
    values and never keys, so the answer is the same at every
    iteration over obj. *)
Definition callHasOwnProperty (obj : value) : completion bool :=
  match obj with
  | VObject props =>
      match getOwn props (lit "hasOwnProperty") with
      | Some _ => Throw (TypeError "obj.hasOwnProperty is not a function")
      | None => Normal true
      end
  | _ => Normal true
  end.

(** The loops below run over the own enumerable properties of obj in
    enumeration order.  An entry is an element of an array (its key is
    its index) or a key with its value in an object; [valueOf] reads
    obj[key] and [assign] is the entry after obj[key] = v. *)
Section ForIn.

Context {A : Type} (valueOf : A -> value) (assign : A -> value -> A).

(** The loop of [getObjectDepth]: [own] is obj.hasOwnProperty(key)
    and [recur v] is getObjectDepth(v, currentDepth + 1). *)
Definition depthLoop (own : completion bool) (recur : value -> completion nat)
  : list A -> nat -> completion nat :=
  fix loop (entries : list A) (maxDepth : nat) : completion nat :=
    match entries with
    | [] => Normal maxDepth
    | e :: rest =>
        has <- own;;
        if has : bool then
          depth <- recur (valueOf e);;
          loop rest (Nat.max maxDepth depth)
        else loop rest maxDepth
    end.

(** The loop of [sanitizeObject]: the entries after the loop, and how
    it completed.  What was assigned before a throw stays assigned. *)
Definition sanitizeLoop (own : completion bool)
  (recur : value -> value * completion unit)
  : list A -> list A * completion unit :=
  fix loop (entries : list A) : list A * completion unit :=
    match entries with
    | [] => ([], Normal tt)
    | e :: rest =>
        match own with
        | Throw err => (entries, Throw err)
        | Normal false => let '(rest', c) := loop rest in (e :: rest', c)
        | Normal true =>
            match recur (valueOf e) with
            | (v', Throw err) => (assign e v' :: rest, Throw err)
            | (v', Normal _) =>
                let '(rest', c) := loop rest in (assign e v' :: rest', c)
            end
        end
    end.

End ForIn.

Definition elemValue (v : value) : value := v.
Definition elemAssign (_ v' : value) : value := v'.
Definition propValue (kv : jsstring * value) : value := snd kv.
Definition propAssign (kv : jsstring * value) (v' : value) : jsstring * value :=
  (fst kv, v').

(** [getObjectDepth(obj, currentDepth)], on a call stack with room for
    the whole recursion.  The same function on a stack of a given number
    of frames, where a call too many throws RangeError, is
    [getObjectDepthOn] below. *)
Fixpoint getObjectDepth (obj : value) (currentDepth : nat) : completion nat :=
  match obj with
  | VArray elems =>
      depthLoop elemValue (callHasOwnProperty obj)
        (fun v => getObjectDepth v (currentDepth + 1)) elems currentDepth
  | VObject props =>
      depthLoop propValue (callHasOwnProperty obj)
        (fun v => getObjectDepth v (currentDepth + 1)) props currentDepth
  | _ => Normal currentDepth
  end.

(** What one iteration of [sanitizeObject] does with the property value
    v: the value of the property afterwards, and how it completed. *)
Definition visit (recur : value -> value * completion unit) (v : value)
  : value * completion unit :=
  match v with
  | VString s => (VString (sanitizeString s), Normal tt)
  | VArray _ | VObject _ => recur v
  | _ => (v, Normal tt)
  end.

(** [sanitizeObject(obj)], on a call stack with room for the whole
    recursion ([sanitizeObjectOn] below is the function on a stack of a
    given number of frames): obj after the call (the call mutates it in
    place), and how the call completed.  On a value that is not an
    object the loop has nothing to enumerate or, for a string
    primitive, nothing it can assign. *)
Fixpoint sanitizeObject (obj : value) : value * completion unit :=
  match obj with
  | VArray elems =>
      let '(elems', c) :=
        sanitizeLoop elemValue elemAssign (callHasOwnProperty obj)
          (visit sanitizeObject) elems in
      (VArray elems', c)
  | VObject props =>
      let '(props', c) :=
        sanitizeLoop propValue propAssign (callHasOwnProperty obj)
          (visit sanitizeObject) props in
      (VObject props', c)
  | _ => (obj, Normal tt)
  end.

(** *** The same recursion under a bound on the call stack

    [getObjectDepthFuel] and [sanitizeObjectFuel] follow the two
    functions call by call and give up ([None]) when a call would nest
    deeper than [fuel] frames. *)
Section ForInFuel.

Context {A : Type} (valueOf : A -> value) (assign : A -> value -> A).

Definition depthLoopFuel (own : completion bool)
  (recur : value -> option (completion nat))
  : list A -> nat -> option (completion nat) :=
  fix loop (entries : list A) (maxDepth : nat) : option (completion nat) :=
    match entries with
    | [] => Some (Normal maxDepth)
    | e :: rest =>
        match own with
        | Throw err => Some (Throw err)
        | Normal false => loop rest maxDepth
        | Normal true =>
            match recur (valueOf e) with
            | None => None
            | Some (Throw err) => Some (Throw err)
            | Some (Normal depth) => loop rest (Nat.max maxDepth depth)
            end
        end
    end.

Definition sanitizeLoopFuel (own : completion bool)
  (recur : value -> option (value * completion unit))
  : list A -> option (list A * completion unit) :=
  fix loop (entries : list A) : option (list A * completion unit) :=
    match entries with
    | [] => Some ([], Normal tt)
    | e :: rest =>
        match own with
        | Throw err => Some (entries, Throw err)
        | Normal false =>
            match loop rest with
            | None => None
            | Some (rest', c) => Some (e :: rest', c)
            end
        | Normal true =>
            match recur (valueOf e) with
            | None => None
            | Some (v', Throw err) => Some (assign e v' :: rest, Throw err)
            | Some (v', Normal _) =>
                match loop rest with
                | None => None
                | Some (rest', c) => Some (assign e v' :: rest', c)
                end
            end
        end
    end.

End ForInFuel.

Fixpoint getObjectDepthFuel (fuel : nat) (obj : value) (currentDepth : nat)
  : option (completion nat) :=
  match fuel with
  | O => None
  | S fuel' =>
      match obj with
      | VArray elems =>
          depthLoopFuel elemValue (callHasOwnProperty obj)
            (fun v => getObjectDepthFuel fuel' v (currentDepth + 1)) elems currentDepth
      | VObject props =>
          depthLoopFuel propValue (callHasOwnProperty obj)
            (fun v => getObjectDepthFuel fuel' v (currentDepth + 1)) props currentDepth
      | _ => Some (Normal currentDepth)
      end
  end.

Definition visitFuel (recur : value -> option (value * completion unit)) (v : value)
  : option (value * completion unit) :=
  match v with
  | VString s => Some (VString (sanitizeString s), Normal tt)
  | VArray _ | VObject _ => recur v
  | _ => Some (v, Normal tt)
  end.

Fixpoint sanitizeObjectFuel (fuel : nat) (obj : value)
  : option (value * completion unit) :=
  match fuel with
  | O => None
  | S fuel' =>
      match obj with
      | VArray elems =>
          match sanitizeLoopFuel elemValue elemAssign (callHasOwnProperty obj)
                  (visitFuel (sanitizeObjectFuel fuel')) elems with
          | None => None
          | Some (elems', c) => Some (VArray elems', c)
          end
      | VObject props =>
          match sanitizeLoopFuel propValue propAssign (callHasOwnProperty obj)
                  (visitFuel (sanitizeObjectFuel fuel')) props with
          | None => None
          | Some (props', c) => Some (VObject props', c)
          end
      | _ => Some (obj, Normal tt)
      end
  end.

End Guard.

(** ** The middleware *)

Module Middleware.

Import JSNumber Guard.

(** What the middleware reads of the request: the header object (names
    in lower case, as the HTTP layer stores them) and the parsed body. *)
Record Request : Type := {
  headers : gmap string jsstring;
  body : value
}.

(** What the middleware writes of the response: the status code, the
    headers set with [setHeader], and the payload handed to [json]. *)
Record Response : Type := {
  statusCode : Z;
  responseHeaders : gmap string jsstring;
  jsonSent : option value
}.

Definition status (res : Response) (code : Z) : Response :=
  {| statusCode := code;
     responseHeaders := responseHeaders res;
     jsonSent := jsonSent res |}.

(** [res.json(payload)], as far as the middleware's own writes go: the
    payload it hands over.  The headers Express adds on its own when it
    sends the payload are not writes of the middleware and are not
    recorded. *)
Definition json (res : Response) (payload : value) : Response :=
  {| statusCode := statusCode res;
     responseHeaders := responseHeaders res;
     jsonSent := Some payload |}.

(** [res.setHeader(name, v)]: the call is recorded under the name as
    the source writes it. *)
Definition setHeader (res : Response) (name : string) (v : jsstring) : Response :=
  {| statusCode := statusCode res;
     responseHeaders := <[name := v]> (responseHeaders res);
     jsonSent := jsonSent res |}.

(** The state a call leaves behind: how it completed, the request with
    its body as mutated, the response, and whether [next] was called. *)
Record Exit : Type := {
  completed : completion unit;
  request : Request;
  response : Response;
  nextCalled : bool
}.

Definition MAX_SIZE : Z := 1048576.
Definition MAX_DEPTH : nat := 10.

Definition allowedTypes : list jsstring :=
  [ lit "application/json";
    lit "application/x-www-form-urlencoded";
    lit "multipart/form-data" ].

Definition str (s : string) : value := VString (lit s).

Definition payloadTooLarge : value :=
  VObject [ (lit "success", VBool false);
           (lit "error", str "Request entity too large");
           (lit "maxSize", VString (lit (pretty MAX_SIZE) ++ lit " bytes")) ].

Definition payloadUnsupported : value :=
  VObject [ (lit "success", VBool false);
           (lit "error", str "Unsupported media type");
           (lit "allowedTypes", VArray (map VString allowedTypes)) ].

Definition payloadTooDeep : value :=
  VObject [ (lit "success", VBool false);
           (lit "error", str "Request object too deeply nested");
           (lit "maxDepth", VNumber 10%float) ].

(** [return res.status(code).json(payload)] *)
Definition reject (req : Request) (res : Response) (code : Z) (payload : value) : Exit :=
  {| completed := Normal tt;
     request := req;
     response := json (status res code) payload;
     nextCalled := false |}.

Definition withBody (req : Request) (b : value) : Request :=
  {| headers := headers req; body := b |}.

Definition contentLengthOf (req : Request) : number :=
  parseInt (orDefault (headers req !! "content-length") (lit "0")).

Definition contentTypeOf (req : Request) : jsstring :=
  orDefault (headers req !! "content-type") (lit "").

(** Steps 4 and 5, after the three checks. *)
Definition finish (req : Request) (res : Response) : Exit :=
  {| completed := Normal tt;
     request := req;
     response := setHeader (setHeader res "X-RateLimit-Limit" (lit "100"))
                           "X-Content-Type-Options" (lit "nosniff");
     nextCalled := true |}.

(** [securityMiddleware(req, res, next)], on a call stack with room for
    the recursion of its two helpers; [securityMiddlewareOn] below is
    the middleware with the frames left to each helper given. *)
Definition securityMiddleware (req : Request) (res : Response) : Exit :=
  let contentLength := contentLengthOf req in
  if gt contentLength MAX_SIZE then
    reject req res 413 payloadTooLarge
  else
    let contentType := contentTypeOf req in
    if truthy contentType
       && negb (existsb (fun type => includes contentType type) allowedTypes)
    then
      reject req res 415 payloadUnsupported
    else if isObject (body req) then
      match getObjectDepth (body req) 0 with
      | Throw e =>
          {| completed := Throw e; request := req; response := res;
             nextCalled := false |}
      | Normal depth =>
          if (MAX_DEPTH <? depth)%nat then
            reject req res 400 payloadTooDeep
          else
            match sanitizeObject (body req) with
            | (body', Throw e) =>
                {| completed := Throw e; request := withBody req body';
                   response := res; nextCalled := false |}
            | (body', Normal _) => finish (withBody req body') res
            end
      end
    else finish req res.

End Middleware.

(** ** The notions the properties are stated with *)

Module Notions.

Import JSNumber Guard Middleware.

(** Two bodies of the same shape: the same nesting, the same keys in
    every mapping, the same number of elements in every sequence, and
    the same leaves except that a string may stand for another string. *)
#[warnings="-register-all"]
Inductive sameShape : value -> value -> Prop :=
| shape_undefined : sameShape VUndefined VUndefined
| shape_null : sameShape VNull VNull
| shape_bool b : sameShape (VBool b) (VBool b)
| shape_number x : sameShape (VNumber x) (VNumber x)
| shape_string s s' : sameShape (VString s) (VString s')
| shape_array l l' :
    Forall2 sameShape l l' -> sameShape (VArray l) (VArray l')
| shape_object p p' :
    Forall2 (fun kv kv' => fst kv = fst kv' /\ sameShape (snd kv) (snd kv')) p p' ->
    sameShape (VObject p) (VObject p').

(** The immediate children of a container. *)
Inductive child : value -> value -> Prop :=
| child_elem c elems : In c elems -> child c (VArray elems)
| child_prop k c props : In (k, c) props -> child c (VObject props).

(** The number of nested containers of a value. *)
Fixpoint height (v : value) : nat :=
  match v with
  | VArray elems => S (foldr Nat.max 0%nat (map height elems))
  | VObject props => S (foldr Nat.max 0%nat (map (fun kv => height (snd kv)) props))
  | _ => 0%nat
  end.

(** No mapping anywhere in the value has an own property named
    hasOwnProperty. *)
Fixpoint shadowFree (v : value) : bool :=
  match v with
  | VArray elems => forallb shadowFree elems
  | VObject props =>
      match getOwn props (lit "hasOwnProperty") with
      | Some _ => false
      | None => forallb (fun kv => shadowFree (snd kv)) props
      end
  | _ => true
  end.

(** Nesting depth in the words of the specification: the depth of a
    scalar is the number of containers around it, the depth of a
    container is the greatest depth of its children, and an empty
    container counts the containers around itself. *)
Fixpoint nestingDepth (ancestors : nat) (v : value) : nat :=
  match v with
  | VArray elems =>
      foldr Nat.max ancestors (map (nestingDepth (S ancestors)) elems)
  | VObject props =>
      foldr Nat.max ancestors
        (map (fun kv => nestingDepth (S ancestors) (snd kv)) props)
  | _ => ancestors
  end.

(** The value with every string in it replaced by its sanitized form,
    in mappings and sequences alike. *)
Fixpoint sanitizeDeep (v : value) : value :=
  match v with
  | VString s => VString (sanitizeString s)
  | VArray elems => VArray (map sanitizeDeep elems)
  | VObject props => VObject (map (fun kv => (fst kv, sanitizeDeep (snd kv))) props)
  | _ => v
  end.

(** The leaf wrapped in n mappings of one property each. *)
Fixpoint nested (n : nat) (leaf : value) : value :=
  match n with
  | O => leaf
  | S n' => VObject [(lit "a", nested n' leaf)]
  end.

(** The call returned after [res.status(code).json(payload)], without
    calling [next]. *)
Definition rejected (e : Exit) (code : Z) (payload : value) : Prop :=
  completed e = Normal tt /\ nextCalled e = false
  /\ statusCode (response e) = code /\ jsonSent (response e) = Some payload.

(** The call returned after calling [next]. *)
Definition passed (e : Exit) : Prop :=
  completed e = Normal tt /\ nextCalled e = true.

(** The declared size passes the first check. *)
Definition sizeAccepted (req : Request) : Prop :=
  gt (contentLengthOf req) MAX_SIZE = false.

(** The header value contains one of the allowed types. *)
Definition allowedType (h : jsstring) : bool :=
  existsb (fun type => includes h type) allowedTypes.

(** The content-type header passes the second check: it is missing or
    empty, or it contains one of the allowed types. *)
Definition typeAccepted (req : Request) : Prop :=
  truthy (contentTypeOf req) && negb (allowedType (contentTypeOf req)) = false.

(** The request with one header set. *)
Definition withHeader (req : Request) (name : string) (v : jsstring) : Request :=
  {| headers := <[name := v]> (headers req); body := body req |}.

(** Two calls that leave the same state behind, the request headers
    (which the middleware never writes) apart. *)
Definition sameOutcome (e1 e2 : Exit) : Prop :=
  completed e1 = completed e2 /\ body (request e1) = body (request e2)
  /\ response e1 = response e2 /\ nextCalled e1 = nextCalled e2.

Definition freshResponse : Response :=
  {| statusCode := 200; responseHeaders := ∅; jsonSent := None |}.

Definition mkRequest (hs : list (string * jsstring)) (b : value) : Request :=
  {| headers := list_to_map hs; body := b |}.

End Notions.

(** ** The helpers of the routes *)

Module Helpers.

Import RegExp.

(** [_.isString(v)] for a value of a parsed body. *)
Definition isString (v : value) : bool :=
  match v with
  | VString _ => true
  | _ => false
  end.

(** lodash's [_.trim(string)] with no characters given is
    [string.replace(reTrim, '')], where reTrim matches the run of [\s] at
    the start of the string and the run of [\s] at its end. *)
Definition trimEnd (s : jsstring) : jsstring :=
  rev (JSNumber.trimStart (rev s)).

Definition trim (s : jsstring) : jsstring := trimEnd (JSNumber.trimStart s).

(** The class of the two angle brackets, for the g-flagged replacement
    of [sanitizeInput]. *)
Definition isAngleBracket (c : code_unit) : bool := (c =? 60) || (c =? 62).

Definition angleBracket : regex := Char isAngleBracket.

(** [sanitizeInput(input)], for whatever [_.trim] does to a string. *)
Definition sanitizeInputWith (trimmer : jsstring -> jsstring) (input : value)
  : jsstring :=
  if negb (isString input) then []
  else
    match input with
    | VString s => replaceAll angleBracket (trimmer s)
    | _ => []
    end.

(** [sanitizeInput(input)] *)
Definition sanitizeInput (input : value) : jsstring :=
  sanitizeInputWith trim input.

(** lodash's [_.pick(object, keys)] for keys that are plain property
    names: a new object with, for each listed key in turn that the
    object has, that key and the object's value for it.  Of a value
    that is not a mapping none of the keys listed here is a property. *)
Definition picked (props : list (jsstring * value)) (key : jsstring)
  : list (jsstring * value) :=
  match getOwn props key with
  | Some v => [(key, v)]
  | None => []
  end.

Definition pick (object : value) (keys : list jsstring) : value :=
  match object with
  | VObject props => VObject (flat_map (picked props) keys)
  | _ => VObject []
  end.

Definition publicFields : list jsstring :=
  [ lit "id"; lit "username"; lit "email"; lit "createdAt"; lit "updatedAt" ].

(** [formatUserData(user)] *)
Definition formatUserData (user : value) : value := pick user publicFields.

(** The properties of a mapping; none for another value. *)
Definition propsOf (v : value) : list (jsstring * value) :=
  match v with
  | VObject props => props
  | _ => []
  end.

End Helpers.

(** ** Measures on values and strings *)

Module Measures.

Import Guard.

(** Every string in the value, at any depth, satisfies P. *)
Fixpoint allStrings (P : jsstring -> bool) (v : value) : bool :=
  match v with
  | VString s => P s
  | VArray elems => forallb (allStrings P) elems
  | VObject props => forallb (fun kv => allStrings P (snd kv)) props
  | _ => true
  end.

Definition withinLimit (s : jsstring) : bool := jslength s <=? MAX_STRING.

(** A string of decimal digits, and the number it writes. *)
Definition allDigits (s : jsstring) : bool := forallb (between 48 57) s.

Definition decimalValue (s : jsstring) : N :=
  fold_left (fun acc c => acc * 10 + (c - 48)) s 0.

(** The error of calling a property that is not a function. *)
Definition shadowError : error :=
  TypeError "obj.hasOwnProperty is not a function".

(** None of the characters the three patterns need: the less-than sign,
    the colon and the equals sign. *)
Definition plainText (s : jsstring) : bool :=
  forallb (fun c => negb ((c =? 60) || (c =? 58) || (c =? 61))) s.

End Measures.

(** ** The call stack *)

Module CallStack.

Import JSNumber Guard Middleware.

(** What a call throws when the call stack has no frame left for it. *)
Definition stackOverflow : error :=
  RangeError "Maximum call stack size exceeded".

(** [getObjectDepth(obj, currentDepth)] with [stack] frames left: the
    call takes one frame and leaves the rest to the calls it makes. *)
Fixpoint getObjectDepthOn (stack : nat) (obj : value) (currentDepth : nat)
  : completion nat :=
  match stack with
  | O => Throw stackOverflow
  | S stack' =>
      match obj with
      | VArray elems =>
          depthLoop elemValue (callHasOwnProperty obj)
            (fun v => getObjectDepthOn stack' v (currentDepth + 1)) elems currentDepth
      | VObject props =>
          depthLoop propValue (callHasOwnProperty obj)
            (fun v => getObjectDepthOn stack' v (currentDepth + 1)) props currentDepth
      | _ => Normal currentDepth
      end
  end.

(** [sanitizeObject(obj)] with [stack] frames left.  What was assigned
    before the stack ran out stays assigned. *)
Fixpoint sanitizeObjectOn (stack : nat) (obj : value) : value * completion unit :=
  match stack with
  | O => (obj, Throw stackOverflow)
  | S stack' =>
      match obj with
      | VArray elems =>
          let '(elems', c) :=
            sanitizeLoop elemValue elemAssign (callHasOwnProperty obj)
              (visit (sanitizeObjectOn stack')) elems in
          (VArray elems', c)
      | VObject props =>
          let '(props', c) :=
            sanitizeLoop propValue propAssign (callHasOwnProperty obj)
              (visit (sanitizeObjectOn stack')) props in
          (VObject props', c)
      | _ => (obj, Normal tt)
      end
  end.

(** The frames a call of [getObjectDepth] takes when it walks the whole
    value: one for the call itself, and below it the most that a call
    on a child takes (a scalar child is a call too). *)
Fixpoint depthFrames (v : value) : nat :=
  match v with
  | VArray elems => S (foldr Nat.max 0%nat (map depthFrames elems))
  | VObject props =>
      S (foldr Nat.max 0%nat (map (fun kv => depthFrames (snd kv)) props))
  | _ => 1%nat
  end.

(** The body of the middleware, with its two helpers as arguments. *)
Definition guardWith (depthOf : value -> completion nat)
  (sanitize : value -> value * completion unit)
  (req : Request) (res : Response) : Exit :=
  let contentLength := contentLengthOf req in
  if gt contentLength MAX_SIZE then
    reject req res 413 payloadTooLarge
  else
    let contentType := contentTypeOf req in
    if truthy contentType
       && negb (existsb (fun type => includes contentType type) allowedTypes)
    then
      reject req res 415 payloadUnsupported
    else if isObject (body req) then
      match depthOf (body req) with
      | Throw e =>
          {| completed := Throw e; request := req; response := res;
             nextCalled := false |}
      | Normal depth =>
          if (MAX_DEPTH <? depth)%nat then
            reject req res 400 payloadTooDeep
          else
            match sanitize (body req) with
            | (body', Throw e) =>
                {| completed := Throw e; request := withBody req body';
                   response := res; nextCalled := false |}
            | (body', Normal _) => finish (withBody req body') res
            end
      end
    else finish req res.

(** [securityMiddleware(req, res, next)] when a call of [getObjectDepth]
    finds [depthStack] frames left and a call of [sanitizeObject] finds
    [sanitizeStack] frames left. *)
Definition securityMiddlewareOn (depthStack sanitizeStack : nat)
  (req : Request) (res : Response) : Exit :=
  guardWith (fun b => getObjectDepthOn depthStack b 0)
            (sanitizeObjectOn sanitizeStack) req res.

End CallStack.

(** ** Properties of the runtime fragment *)

Module RuntimeFacts.

Import JSNumber.

Example parseInt_decimal : parseInt (lit "1048577") = Int 1048577.
Proof. reflexivity. Qed.

Example parseInt_stops_at_first_non_digit :
  parseInt (lit " 42px") = Int 42 /\ parseInt (lit "1e9") = Int 1.
Proof. split; reflexivity. Qed.

Example parseInt_sign_and_prefix :
  parseInt (lit "-7") = Int (-7) /\ parseInt (lit "0x10") = Int 16
  /\ parseInt (lit "-0X1f") = Int (-31).
Proof. repeat split. Qed.

Example parseInt_no_digits :
  parseInt (lit "abc") = NaN /\ parseInt (lit "") = NaN
  /\ parseInt (lit "-") = NaN /\ parseInt (lit "0x") = NaN.
Proof. repeat split. Qed.

Example includes_substring :
  includes (lit "application/json; charset=utf-8") (lit "application/json") = true
  /\ includes (lit "text/plain") (lit "application/json") = false
  /\ includes (lit "") (lit "") = true.
Proof. repeat split. Qed.

Lemma gt_NaN (b : Z) : gt NaN b = false.
Proof. reflexivity. Qed.

End RuntimeFacts.

(** ** Properties of the matcher *)

Module RegExpFacts.

Import RegExp.

Lemma ahead_refl (x : cursor) : ahead x x.
Proof. exists []. split; [reflexivity | cbn; lia]. Qed.

Lemma ahead_trans (x y z : cursor) : ahead x y -> ahead y z -> ahead x z.
Proof.
  intros (p1 & H1 & I1) (p2 & H2 & I2). exists (p1 ++ p2). split.
  - rewrite H1, H2. apply app_assoc.
  - rewrite I2, I1, length_app. lia.
Qed.

Lemma ahead_step (x : cursor) (c : code_unit) (s' : jsstring) :
  remaining x = c :: s' -> ahead x (Cursor (Some c) s' (index x + 1)).
Proof. intros H. exists [c]. split; [exact H | cbn; lia]. Qed.

Lemma ahead_length (x y : cursor) :
  ahead x y -> index x < index y ->
  (length (remaining y) < length (remaining x))%nat.
Proof.
  intros (pre & H & I) Hlt. rewrite H, length_app.
  destruct pre; cbn in *; lia.
Qed.

Lemma ahead_end (x y : cursor) :
  remaining x = [] -> ahead x y -> index y = index x.
Proof.
  intros Hx (pre & H & I). rewrite Hx in H.
  destruct pre; [cbn in I; lia | discriminate].
Qed.

Section Iterate.

Context (step : cursor -> (cursor -> option cursor) -> option cursor).
Hypothesis step_ext : forall x k k',
  (forall y, ahead x y -> k y = k' y) -> step x k = step x k'.

Lemma iterate_ext (x0 : cursor) (k k' : cursor -> option cursor) :
  (forall y, ahead x0 y -> k y = k' y) ->
  forall bound x, ahead x0 x -> iterate step k bound x = iterate step k' bound x.
Proof using step_ext.
  intros Hk. induction bound as [|c bound IH]; intros x Hx; cbn [iterate].
  - now apply Hk.
  - rewrite (step_ext x _ (fun y => if index x <? index y
                                    then iterate step k' bound y else None)).
    + now rewrite (Hk x Hx).
    + intros y Hy. destruct (index x <? index y); [|reflexivity].
      apply IH. eapply ahead_trans; eassumption.
Qed.

Hypothesis step_none : forall x, step x (fun _ => None) = None.

Lemma iterate_none (bound : jsstring) (x : cursor) :
  iterate step (fun _ => None) bound x = None.
Proof using step_ext step_none.
  revert x. induction bound as [|c bound IH]; intros x; cbn [iterate].
  - reflexivity.
  - rewrite (step_ext x _ (fun _ => None)); [now rewrite step_none|].
    intros y _. destruct (index x <? index y); [apply IH | reflexivity].
Qed.

Lemma iterate_at_end (k : cursor -> option cursor) (bound : jsstring) (x : cursor) :
  remaining x = [] -> iterate step k bound x = k x.
Proof using step_ext step_none.
  intros Hx. destruct bound as [|c bound]; cbn [iterate]; [reflexivity|].
  rewrite (step_ext x _ (fun _ => None)); [now rewrite step_none|].
  intros y Hy. rewrite (ahead_end x y Hx Hy), N.ltb_irrefl. reflexivity.
Qed.

(** Once the bound covers the input that remains, a larger bound
    changes nothing. *)
Lemma iterate_bound (k : cursor -> option cursor) (extra : jsstring) :
  forall bound x, (length (remaining x) <= length bound)%nat ->
  iterate step k (bound ++ extra) x = iterate step k bound x.
Proof using step_ext step_none.
  induction bound as [|c bound IH]; intros x Hlen.
  - assert (Hx : remaining x = []) by (destruct (remaining x); [reflexivity | cbn in Hlen; lia]).
    now rewrite !iterate_at_end.
  - cbn [app iterate].
    rewrite (step_ext x _ (fun y => if index x <? index y
                                    then iterate step k bound y else None));
      [reflexivity|].
    intros y Hy. destruct (N.ltb_spec (index x) (index y)); [|reflexivity].
    apply IH. pose proof (ahead_length x y Hy ltac:(assumption)).
    cbn [length] in Hlen. lia.
Qed.

End Iterate.

Lemma exec_ext (r : regex) :
  forall x k k', (forall y, ahead x y -> k y = k' y) -> exec r x k = exec r x k'.
Proof.
  induction r as [|p|r1 IH1 r2 IH2|r1 IH1|r1 IH1|]; intros x k k' Hk;
    cbn [exec].
  - apply Hk, ahead_refl.
  - destruct (remaining x) as [|c s'] eqn:Hx; [reflexivity|].
    destruct (p c); [|reflexivity]. now apply Hk, ahead_step.
  - apply IH1. intros y Hy. apply IH2. intros z Hz.
    apply Hk. eapply ahead_trans; eassumption.
  - apply (iterate_ext (exec r1) IH1 x); [exact Hk | apply ahead_refl].
  - now rewrite (Hk x (ahead_refl x)).
  - now rewrite (Hk x (ahead_refl x)).
Qed.

Lemma exec_none (r : regex) : forall x, exec r x (fun _ => None) = None.
Proof.
  induction r as [|p|r1 IH1 r2 IH2|r1 IH1|r1 IH1|]; intros x; cbn [exec].
  - reflexivity.
  - destruct (remaining x) as [|c s']; [reflexivity|]. now destruct (p c).
  - rewrite (exec_ext r1 x _ (fun _ => None)); [apply IH1|].
    intros y _. apply IH2.
  - apply (iterate_none (exec r1) (exec_ext r1) IH1).
  - now destruct (exec r1 x Some).
  - now destruct (xorb _ _).
Qed.

(** The repetition of [exec] does not depend on its bound: the input
    that remains is enough, and any longer bound gives the same match. *)
Lemma star_bound_adequate (r : regex) (x : cursor) (k : cursor -> option cursor)
  (extra : jsstring) :
  iterate (exec r) k (remaining x ++ extra) x = exec (Star r) x k.
Proof.
  cbn [exec].
  apply (iterate_bound (exec r) (exec_ext r) (exec_none r)). lia.
Qed.

End RegExpFacts.

(** ** Properties of the string transform *)

Module StringFacts.

Import RegExp Guard.

Lemma replaceFrom_absent (r : regex) (s : jsstring) :
  forall bef i, absentFrom r bef i s = true -> replaceFrom r 0 bef i s = s.
Proof.
  induction s as [|c s IH]; intros bef i H; cbn [replaceFrom absentFrom] in *.
  - reflexivity.
  - destruct (matchAt r (Cursor bef (c :: s) i)); [discriminate|].
    f_equal. now apply IH.
Qed.

Lemma replaceAll_absent (r : regex) (s : jsstring) :
  absent r s = true -> replaceAll r s = s.
Proof. apply replaceFrom_absent. Qed.

Lemma substitute_absent (s : jsstring) :
  absent scriptBlock s = true -> absent javascriptScheme s = true ->
  absent inlineHandler s = true -> substitute s = s.
Proof.
  intros H1 H2 H3. unfold substitute.
  now rewrite (replaceAll_absent _ _ H1), (replaceAll_absent _ _ H2),
    (replaceAll_absent _ _ H3).
Qed.

Lemma truncate_firstn (s : jsstring) : truncate s = substring0 s MAX_STRING.
Proof.
  unfold truncate, substring0, jslength.
  destruct (N.ltb_spec MAX_STRING (N.of_nat (length s))) as [Hlt|Hge].
  - reflexivity.
  - symmetry. apply firstn_all2. lia.
Qed.

Lemma jslength_substring0 (s : jsstring) (n : N) :
  jslength (substring0 s n) = N.min n (jslength s).
Proof. unfold jslength, substring0. rewrite length_firstn. lia. Qed.

Lemma jslength_truncate (s : jsstring) :
  jslength (truncate s) = N.min MAX_STRING (jslength s).
Proof. rewrite truncate_firstn. apply jslength_substring0. Qed.

Lemma truncate_short (s : jsstring) :
  jslength s <= MAX_STRING -> truncate s = s.
Proof.
  intros H. unfold truncate.
  destruct (N.ltb_spec MAX_STRING (jslength s)); [lia | reflexivity].
Qed.

Lemma truncate_idempotent (s : jsstring) : truncate (truncate s) = truncate s.
Proof. apply truncate_short. rewrite jslength_truncate. lia. Qed.

Lemma jslength_sanitizeString (s : jsstring) :
  jslength (sanitizeString s) <= MAX_STRING.
Proof. unfold sanitizeString. rewrite jslength_truncate. lia. Qed.

(** The examples of the specification. *)
Example sanitize_script_block :
  sanitizeString (lit "<script>alert(1)</script>hello") = lit "hello".
Proof. vm_compute. reflexivity. Qed.

Example sanitize_javascript_scheme :
  sanitizeString (lit "click here javascript:alert(1)") = lit "click here alert(1)".
Proof. vm_compute. reflexivity. Qed.

Example sanitize_inline_handler :
  sanitizeString (lit "<div onclick=" ++ [34] ++ lit "x()" ++ [34] ++ lit ">")
  = lit "<div " ++ [34] ++ lit "x()" ++ [34] ++ lit ">".
Proof. vm_compute. reflexivity. Qed.

Example sanitize_handler_with_space :
  sanitizeString (lit "a onerror  =b") = lit "a b".
Proof. vm_compute. reflexivity. Qed.

Example sanitize_mixed_case :
  sanitizeString (lit "x<SCRIPT src=a>1<b>2</ScRiPt>y JavaScript:z") = lit "xy z".
Proof. vm_compute. reflexivity. Qed.

Example sanitize_needs_word_boundary :
  sanitizeString (lit "<scripts>1</script>") = lit "<scripts>1</script>".
Proof. vm_compute. reflexivity. Qed.

(** C8, at the failing input: deleting the inner occurrence of the
    scheme text joins what surrounds it into a new occurrence.  The
    sanitized string still contains the pattern that was to be removed,
    and sanitizing it again gives another string. *)
Lemma C8_second_pass_changes_result :
  let s := lit "javajavascript:script:alert(1)" in
  sanitizeString s = lit "javascript:alert(1)"
  /\ absent javascriptScheme (sanitizeString s) = false
  /\ sanitizeString (sanitizeString s) = lit "alert(1)"
  /\ sanitizeString (sanitizeString s) <> sanitizeString s.
Proof. vm_compute. repeat split. discriminate. Qed.

(** C9, counterexample: 10050 code units of which a script block takes
    all; nothing is left after the substitutions. *)
Lemma C9_counterexample :
  let s := lit "<script>" ++ repeat 97 (N.to_nat 10033) ++ lit "</script>" in
  jslength s = 10050 /\ jslength (sanitizeString s) <> 10000.
Proof. vm_compute. split; [reflexivity | discriminate]. Qed.

(** C9, as amended: the sanitized string is the first 10000 code units
    of the result of the substitutions, so its length is the smaller of
    10000 and the length of that result: exactly 10000 when that result
    is longer than 10000, and in particular for a string of 10050 code
    units in which no pattern matches. *)
Theorem C9_cut_after_substitution (s : jsstring) :
  sanitizeString s = substring0 (substitute s) 10000
  /\ jslength (sanitizeString s) = N.min 10000 (jslength (substitute s))
  /\ (10000 < jslength (substitute s) -> jslength (sanitizeString s) = 10000)
  /\ (jslength s = 10050 -> absent scriptBlock s = true ->
      absent javascriptScheme s = true -> absent inlineHandler s = true ->
      jslength (sanitizeString s) = 10000).
Proof.
  unfold sanitizeString.
  split; [apply truncate_firstn|].
  split; [apply jslength_truncate|].
  split.
  - intros H. rewrite jslength_truncate. unfold MAX_STRING. lia.
  - intros Hlen H1 H2 H3. rewrite (substitute_absent _ H1 H2 H3).
    rewrite jslength_truncate. unfold MAX_STRING. lia.
Qed.

Lemma C9_witness :
  jslength (sanitizeString (repeat 97 (N.to_nat 10050))) = 10000.
Proof.
  apply (C9_cut_after_substitution (repeat 97 (N.to_nat 10050)));
    vm_compute; reflexivity.
Defined.

End StringFacts.

(** ** Properties of the two loops *)

Module LoopFacts.

Import Guard Notions.

Section Loops.

Context {A : Type} (valueOf : A -> value) (assign : A -> value -> A).

Lemma depthLoop_own_true (recur : value -> completion nat) (f : A -> nat)
  (entries : list A) :
  Forall (fun e => recur (valueOf e) = Normal (f e)) entries ->
  forall m, depthLoop valueOf (Normal true) recur entries m
            = Normal (fold_left (fun m e => Nat.max m (f e)) entries m).
Proof.
  induction 1 as [|e rest He _ IH]; intros m; cbn [depthLoop fold_left].
  - reflexivity.
  - cbn [bind]. rewrite He. cbn [bind]. apply IH.
Qed.

Lemma depthLoop_own_throw (err : error) (recur : value -> completion nat)
  (e : A) (rest : list A) (m : nat) :
  depthLoop valueOf (Throw err) recur (e :: rest) m = Throw err.
Proof. reflexivity. Qed.

Lemma depthLoop_normal_children (recur : value -> completion nat)
  (entries : list A) :
  forall m d, depthLoop valueOf (Normal true) recur entries m = Normal d ->
  Forall (fun e => exists d', recur (valueOf e) = Normal d') entries.
Proof.
  induction entries as [|e rest IH]; intros m d H; constructor.
  - cbn [depthLoop bind] in H.
    destruct (recur (valueOf e)) as [d'|err]; [eauto | discriminate].
  - cbn [depthLoop bind] in H.
    destruct (recur (valueOf e)) as [d'|err]; [|discriminate].
    cbn [bind] in H. eapply IH, H.
Qed.

Lemma sanitizeLoop_own_true (recur : value -> value * completion unit)
  (g : A -> value) (entries : list A) :
  Forall (fun e => recur (valueOf e) = (g e, Normal tt)) entries ->
  sanitizeLoop valueOf assign (Normal true) recur entries
  = (map (fun e => assign e (g e)) entries, Normal tt).
Proof.
  induction 1 as [|e rest He _ IH]; cbn [sanitizeLoop map].
  - reflexivity.
  - rewrite He, IH. reflexivity.
Qed.

Lemma sanitizeLoop_normal_children (recur : value -> value * completion unit)
  (entries : list A) :
  snd (sanitizeLoop valueOf assign (Normal true) recur entries) = Normal tt ->
  Forall (fun e => snd (recur (valueOf e)) = Normal tt) entries.
Proof.
  induction entries as [|e rest IH]; intros H; constructor;
    cbn [sanitizeLoop] in H;
    destruct (recur (valueOf e)) as [v' [[]|err]]; cbn [snd] in *;
    try discriminate; try reflexivity.
  apply IH.
  destruct (sanitizeLoop valueOf assign (Normal true) recur rest); exact H.
Qed.

(** A relation that holds between every entry and itself, and between
    an entry and what an iteration assigns to it, holds along the whole
    loop, wherever the loop stops. *)
Lemma sanitizeLoop_related (R : A -> A -> Prop) (own : completion bool)
  (recur : value -> value * completion unit) (entries : list A) :
  (forall e, R e e) ->
  Forall (fun e => R e (assign e (fst (recur (valueOf e))))) entries ->
  Forall2 R entries (fst (sanitizeLoop valueOf assign own recur entries)).
Proof.
  intros Hrefl.
  assert (Hsame : forall l : list A, Forall2 R l l).
  { induction l; constructor; auto. }
  induction 1 as [|e rest He _ IH]; cbn [sanitizeLoop].
  - constructor.
  - destruct own as [[|]|err]; cbn [fst].
    + destruct (recur (valueOf e)) as [v' [u|err]]; cbn [fst] in He.
      * destruct (sanitizeLoop valueOf assign (Normal true) recur rest).
        constructor; assumption.
      * constructor; [assumption | apply Hsame].
    + destruct (sanitizeLoop valueOf assign (Normal false) recur rest).
      constructor; [apply Hrefl | assumption].
    + apply Hsame.
Qed.

Lemma depthLoopFuel_agrees (own : completion bool)
  (recurF : value -> option (completion nat)) (recur : value -> completion nat)
  (entries : list A) :
  Forall (fun e => recurF (valueOf e) = Some (recur (valueOf e))) entries ->
  forall m, depthLoopFuel valueOf own recurF entries m
            = Some (depthLoop valueOf own recur entries m).
Proof.
  induction 1 as [|e rest He _ IH]; intros m; cbn [depthLoopFuel depthLoop].
  - reflexivity.
  - destruct own as [[|]|err]; cbn [bind].
    + rewrite He. destruct (recur (valueOf e)); cbn [bind]; [apply IH | reflexivity].
    + apply IH.
    + reflexivity.
Qed.

Lemma sanitizeLoopFuel_agrees (own : completion bool)
  (recurF : value -> option (value * completion unit))
  (recur : value -> value * completion unit) (entries : list A) :
  Forall (fun e => recurF (valueOf e) = Some (recur (valueOf e))) entries ->
  sanitizeLoopFuel valueOf assign own recurF entries
  = Some (sanitizeLoop valueOf assign own recur entries).
Proof.
  induction 1 as [|e rest He _ IH]; cbn [sanitizeLoopFuel sanitizeLoop].
  - reflexivity.
  - destruct own as [[|]|err].
    + rewrite He. destruct (recur (valueOf e)) as [v' [u|err]]; [|reflexivity].
      rewrite IH. destruct (sanitizeLoop valueOf assign (Normal true) recur rest).
      reflexivity.
    + rewrite IH. destruct (sanitizeLoop valueOf assign (Normal false) recur rest).
      reflexivity.
    + reflexivity.
Qed.

End Loops.

Lemma fold_left_max_foldr {A : Type} (f : A -> nat) (entries : list A) :
  forall m, fold_left (fun m e => Nat.max m (f e)) entries m
            = foldr Nat.max m (map f entries).
Proof.
  assert (Hshift : forall (xs : list nat) m x,
             foldr Nat.max (Nat.max m x) xs = Nat.max x (foldr Nat.max m xs)).
  { induction xs as [|y xs IH]; intros m x; cbn [foldr]; [lia|].
    rewrite IH. lia. }
  induction entries as [|e rest IH]; intros m; cbn [fold_left map foldr].
  - reflexivity.
  - rewrite IH. apply Hshift.
Qed.

Lemma foldr_max_ge (xs : list nat) (m x : nat) :
  In x xs -> (x <= foldr Nat.max m xs)%nat.
Proof.
  induction xs as [|y xs IH]; cbn [In foldr]; [tauto|].
  intros [->|H]; [lia|]. specialize (IH H). lia.
Qed.

End LoopFacts.

(** ** Properties of [getObjectDepth] and [sanitizeObject] *)

Module GuardFacts.

Import Guard Notions LoopFacts.

Lemma sameShape_refl (v : value) : sameShape v v.
Proof.
  induction v as [| | | | |elems IH|props IH] using value_ind; try constructor.
  - induction IH; constructor; assumption.
  - induction IH; constructor; auto.
Qed.

Lemma sameShape_length (l l' : list value) :
  sameShape (VArray l) (VArray l') -> length l = length l'.
Proof. inversion 1; subst. eapply Forall2_length; eassumption. Qed.

Lemma sameShape_keys (p p' : list (jsstring * value)) :
  sameShape (VObject p) (VObject p') -> map fst p = map fst p'.
Proof.
  inversion 1 as [| | | | | |? ? HF]; subst. clear H.
  induction HF as [|kv kv' ? ? [Hk _] _ IH]; cbn [map]; [reflexivity|].
  now rewrite Hk, IH.
Qed.

Lemma visit_sameShape (v : value) :
  sameShape v (fst (sanitizeObject v)) ->
  sameShape v (fst (visit sanitizeObject v)).
Proof. destruct v; cbn [visit fst]; auto; constructor. Qed.

(** C2: whatever the body, and however the call completes, the body
    after [sanitizeObject] has the shape it had before: the same
    nesting, the same keys in every mapping, the same length of every
    sequence, every leaf that is not a string unchanged. *)
Theorem C2_sanitizeObject_keeps_shape (obj : value) :
  sameShape obj (fst (sanitizeObject obj)).
Proof.
  induction obj as [| | | | |elems IH|props IH] using value_ind; try (cbn; constructor).
  - cbn [sanitizeObject].
    pose proof (sanitizeLoop_related elemValue elemAssign sameShape
                  (callHasOwnProperty (VArray elems)) (visit sanitizeObject) elems
                  sameShape_refl) as H.
    destruct (sanitizeLoop elemValue elemAssign _ _ elems) as [elems' c].
    cbn [fst] in *. constructor. apply H.
    eapply Forall_impl; [exact IH|]. intros v Hv. now apply visit_sameShape.
  - cbn [sanitizeObject].
    pose proof (sanitizeLoop_related propValue propAssign
                  (fun kv kv' => fst kv = fst kv' /\ sameShape (snd kv) (snd kv'))
                  (callHasOwnProperty (VObject props)) (visit sanitizeObject) props) as H.
    destruct (sanitizeLoop propValue propAssign _ _ props) as [props' c].
    cbn [fst] in *. constructor. apply H.
    + intros kv. split; [reflexivity | apply sameShape_refl].
    + eapply Forall_impl; [exact IH|]. intros kv Hkv.
      split; [reflexivity|]. now apply visit_sameShape.
Qed.

Example sanitizeObject_shape_example :
  fst (sanitizeObject
         (VObject [(lit "n", VNumber 1%float);
                   (lit "s", VString (lit "javascript:a"));
                   (lit "l", VArray [VNull; VString (lit "onclick=b"); VObject []])]))
  = VObject [(lit "n", VNumber 1%float);
             (lit "s", VString (lit "a"));
             (lit "l", VArray [VNull; VString (lit "b"); VObject []])].
Proof. vm_compute. reflexivity. Qed.

(** *** Bodies in which hasOwnProperty is not shadowed *)

Lemma callHasOwnProperty_array (elems : list value) :
  callHasOwnProperty (VArray elems) = Normal true.
Proof. reflexivity. Qed.

Lemma callHasOwnProperty_object (props : list (jsstring * value)) :
  callHasOwnProperty (VObject props)
  = match getOwn props (lit "hasOwnProperty") with
    | Some _ => Throw (TypeError "obj.hasOwnProperty is not a function")
    | None => Normal true
    end.
Proof. reflexivity. Qed.

Lemma getObjectDepth_shadowFree (obj : value) :
  shadowFree obj = true ->
  forall cur, getObjectDepth obj cur = Normal (nestingDepth cur obj).
Proof.
  induction obj as [| | | | |elems IH|props IH] using value_ind; intros Hfree cur;
    try reflexivity.
  - cbn [getObjectDepth nestingDepth shadowFree] in *.
    rewrite callHasOwnProperty_array.
    rewrite (depthLoop_own_true elemValue _ (nestingDepth (S cur))).
    + now rewrite fold_left_max_foldr.
    + rewrite forallb_forall in Hfree. rewrite List.Forall_forall in IH |- *.
      intros v Hv. unfold elemValue. rewrite Nat.add_1_r. apply IH; auto.
  - cbn [getObjectDepth nestingDepth shadowFree] in *.
    rewrite callHasOwnProperty_object.
    destruct (getOwn props (lit "hasOwnProperty")); [discriminate|].
    rewrite (depthLoop_own_true propValue _
               (fun kv => nestingDepth (S cur) (snd kv))).
    + now rewrite fold_left_max_foldr.
    + rewrite forallb_forall in Hfree. rewrite List.Forall_forall in IH |- *.
      intros kv Hkv. unfold propValue. rewrite Nat.add_1_r. apply IH; auto.
Qed.

Lemma getObjectDepth_normal_shadowFree (obj : value) :
  forall cur d, getObjectDepth obj cur = Normal d -> shadowFree obj = true.
Proof.
  induction obj as [| | | | |elems IH|props IH] using value_ind; intros cur d H;
    try reflexivity.
  - cbn [getObjectDepth shadowFree] in *.
    rewrite callHasOwnProperty_array in H.
    apply depthLoop_normal_children in H.
    rewrite forallb_forall. rewrite List.Forall_forall in IH, H.
    intros v Hv. destruct (H v Hv) as [d' Hd']. eapply IH; eauto.
  - cbn [getObjectDepth shadowFree] in *.
    rewrite callHasOwnProperty_object in H.
    destruct props as [|kv props']; [reflexivity|].
    destruct (getOwn (kv :: props') (lit "hasOwnProperty")).
    + rewrite depthLoop_own_throw in H. discriminate.
    + apply depthLoop_normal_children in H.
      rewrite forallb_forall. rewrite List.Forall_forall in IH, H.
      intros kv' Hkv'. destruct (H kv' Hkv') as [d' Hd']. eapply IH; eauto.
Qed.

Lemma getObjectDepth_normal (obj : value) (cur d : nat) :
  getObjectDepth obj cur = Normal d -> d = nestingDepth cur obj.
Proof.
  intros H. pose proof (getObjectDepth_normal_shadowFree _ _ _ H) as Hfree.
  rewrite (getObjectDepth_shadowFree _ Hfree) in H. congruence.
Qed.

Lemma visit_shadowFree (v : value) :
  (shadowFree v = true ->
   sanitizeObject v = (if isObject v then sanitizeDeep v else v, Normal tt)) ->
  shadowFree v = true ->
  visit sanitizeObject v = (sanitizeDeep v, Normal tt).
Proof. destruct v; cbn [visit sanitizeDeep isObject]; auto. Qed.

Lemma sanitizeObject_shadowFree (obj : value) :
  shadowFree obj = true ->
  sanitizeObject obj = (if isObject obj then sanitizeDeep obj else obj, Normal tt).
Proof.
  induction obj as [| | | | |elems IH|props IH] using value_ind; intros Hfree; try reflexivity.
  - cbn [sanitizeObject shadowFree isObject sanitizeDeep] in *.
    rewrite callHasOwnProperty_array.
    rewrite (sanitizeLoop_own_true elemValue elemAssign _ sanitizeDeep).
    + reflexivity.
    + rewrite forallb_forall in Hfree. rewrite List.Forall_forall in IH |- *.
      intros v Hv. apply visit_shadowFree; auto.
  - cbn [sanitizeObject shadowFree isObject sanitizeDeep] in *.
    rewrite callHasOwnProperty_object.
    destruct (getOwn props (lit "hasOwnProperty")); [discriminate|].
    rewrite (sanitizeLoop_own_true propValue propAssign _
               (fun kv => sanitizeDeep (snd kv))).
    + reflexivity.
    + rewrite forallb_forall in Hfree. rewrite List.Forall_forall in IH |- *.
      intros kv Hkv. apply visit_shadowFree; auto.
Qed.

Lemma visit_normal (v : value) :
  (snd (sanitizeObject v) = Normal tt -> shadowFree v = true) ->
  snd (visit sanitizeObject v) = Normal tt -> shadowFree v = true.
Proof. destruct v; cbn [visit]; auto. Qed.

Lemma sanitizeObject_normal_shadowFree (obj : value) :
  snd (sanitizeObject obj) = Normal tt -> shadowFree obj = true.
Proof.
  induction obj as [| | | | |elems IH|props IH] using value_ind; intros H; try reflexivity.
  - cbn [sanitizeObject shadowFree] in *.
    rewrite callHasOwnProperty_array in H.
    pose proof (sanitizeLoop_normal_children elemValue elemAssign
                  (visit sanitizeObject) elems) as Hc.
    destruct (sanitizeLoop elemValue elemAssign _ _ elems) as [elems' c].
    specialize (Hc H).
    rewrite forallb_forall. rewrite List.Forall_forall in IH, Hc.
    intros v Hv. apply visit_normal; [apply IH, Hv | apply (Hc v Hv)].
  - cbn [sanitizeObject shadowFree] in *.
    rewrite callHasOwnProperty_object in H.
    destruct props as [|kv props']; [reflexivity|].
    destruct (getOwn (kv :: props') (lit "hasOwnProperty")).
    + cbn in H. discriminate.
    + pose proof (sanitizeLoop_normal_children propValue propAssign
                    (visit sanitizeObject) (kv :: props')) as Hc.
      destruct (sanitizeLoop propValue propAssign _ _ (kv :: props')) as [props'' c].
      specialize (Hc H).
      rewrite forallb_forall. rewrite List.Forall_forall in IH, Hc.
      intros kv' Hkv'.
      apply visit_normal; [apply (IH kv' Hkv') | apply (Hc kv' Hkv')].
Qed.

(** C7, counterexample: a string that is an element of a sequence is
    visited and replaced by its sanitized form. *)
Lemma C7_counterexample :
  let body := VObject [(lit "tags", VArray [VString (lit "javascript:alert(1)")])] in
  fst (sanitizeObject body)
  = VObject [(lit "tags", VArray [VString (lit "alert(1)")])]
  /\ fst (sanitizeObject body) <> body.
Proof. vm_compute. split; [reflexivity | discriminate]. Qed.

(** C7, as amended: [sanitizeObject] recurses into sequences as it does
    into mappings; when the call completes normally, every string that
    is a property value or a sequence element, at any depth, has been
    replaced by its sanitized form. *)
Theorem C7_sanitizeObject_visits_sequences (obj : value) :
  isObject obj = true ->
  snd (sanitizeObject obj) = Normal tt ->
  fst (sanitizeObject obj) = sanitizeDeep obj.
Proof.
  intros Hobj Hnormal.
  rewrite (sanitizeObject_shadowFree obj
             (sanitizeObject_normal_shadowFree obj Hnormal)).
  now rewrite Hobj.
Qed.

Lemma C7_witness :
  fst (sanitizeObject
         (VArray [VString (lit "onload=run");
                  VArray [VString (lit "<script>x</script>y")]]))
  = sanitizeDeep
      (VArray [VString (lit "onload=run");
               VArray [VString (lit "<script>x</script>y")]]).
Proof.
  apply C7_sanitizeObject_visits_sequences; vm_compute; reflexivity.
Defined.

(** *** Termination *)

Lemma child_height (c v : value) : child c v -> (height c < height v)%nat.
Proof.
  intros [c' elems Hin|k c' props Hin]; cbn [height]; apply Nat.lt_succ_r.
  - apply foldr_max_ge, in_map, Hin.
  - apply foldr_max_ge.
    apply (in_map (fun kv => height (snd kv)) _ _ Hin).
Qed.

Lemma child_well_founded : well_founded child.
Proof. apply (well_founded_lt_compat _ height). exact child_height. Qed.

Lemma getObjectDepthFuel_enough (obj : value) :
  forall fuel cur, (height obj < fuel)%nat ->
  getObjectDepthFuel fuel obj cur = Some (getObjectDepth obj cur).
Proof.
  induction obj as [| | | | |elems IH|props IH] using value_ind;
    intros [|fuel] cur Hfuel; try lia; try reflexivity.
  - cbn [getObjectDepthFuel getObjectDepth].
    apply depthLoopFuel_agrees.
    rewrite List.Forall_forall in IH |- *. intros v Hv. apply IH; [exact Hv|].
    pose proof (child_height v (VArray elems) (child_elem _ _ Hv)).
      unfold elemValue. lia.
  - cbn [getObjectDepthFuel getObjectDepth].
    apply depthLoopFuel_agrees.
    rewrite List.Forall_forall in IH |- *. intros [k v] Hkv.
    apply (IH _ Hkv).
    pose proof (child_height v (VObject props) (child_prop _ _ _ Hkv)).
      unfold propValue. cbn [snd]. lia.
Qed.

Lemma visitFuel_agrees (recurF : value -> option (value * completion unit))
  (recur : value -> value * completion unit) (v : value) :
  recurF v = Some (recur v) -> visitFuel recurF v = Some (visit recur v).
Proof. destruct v; cbn [visitFuel visit]; auto. Qed.

Lemma sanitizeObjectFuel_enough (obj : value) :
  forall fuel, (height obj < fuel)%nat ->
  sanitizeObjectFuel fuel obj = Some (sanitizeObject obj).
Proof.
  induction obj as [| | | | |elems IH|props IH] using value_ind;
    intros [|fuel] Hfuel; try lia; try reflexivity.
  - cbn [sanitizeObjectFuel sanitizeObject].
    rewrite (sanitizeLoopFuel_agrees elemValue elemAssign _ _
               (visit sanitizeObject)).
    + now destruct (sanitizeLoop elemValue elemAssign _ _ elems).
    + rewrite List.Forall_forall in IH |- *. intros v Hv.
      apply visitFuel_agrees, IH; [exact Hv|].
      pose proof (child_height v (VArray elems) (child_elem _ _ Hv)).
      unfold elemValue. lia.
  - cbn [sanitizeObjectFuel sanitizeObject].
    rewrite (sanitizeLoopFuel_agrees propValue propAssign _ _
               (visit sanitizeObject)).
    + now destruct (sanitizeLoop propValue propAssign _ _ props).
    + rewrite List.Forall_forall in IH |- *. intros [k v] Hkv.
      apply visitFuel_agrees, (IH _ Hkv).
      pose proof (child_height v (VObject props) (child_prop _ _ _ Hkv)).
      unfold propValue. cbn [snd]. lia.
Qed.

(** C10: on every body value (a finite tree) both functions terminate.
    The immediate-child relation is well founded, every child of a
    value is strictly lower than it, and a call stack of one frame more
    than the height of the value is enough for [getObjectDepth] and for
    [sanitizeObject] to return, with a result or with a thrown error. *)
Theorem C10_recursion_terminates :
  well_founded child
  /\ (forall c obj, child c obj -> (height c < height obj)%nat)
  /\ (forall obj cur extra,
        getObjectDepthFuel (S (height obj) + extra) obj cur
        = Some (getObjectDepth obj cur))
  /\ (forall obj extra,
        sanitizeObjectFuel (S (height obj) + extra) obj
        = Some (sanitizeObject obj)).
Proof.
  split; [exact child_well_founded|].
  split; [exact child_height|].
  split.
  - intros obj cur extra. apply getObjectDepthFuel_enough. lia.
  - intros obj extra. apply sanitizeObjectFuel_enough. lia.
Qed.

Example getObjectDepthFuel_too_little :
  getObjectDepthFuel 2 (nested 2 (VNumber 1%float)) 0 = None.
Proof. reflexivity. Qed.

End GuardFacts.

(** ** Properties of the middleware *)

Module MiddlewareFacts.

Import JSNumber Guard Middleware Notions GuardFacts.

Lemma too_large_rejected (req : Request) (res : Response) :
  gt (contentLengthOf req) MAX_SIZE = true ->
  securityMiddleware req res = reject req res 413 payloadTooLarge.
Proof. intros H. unfold securityMiddleware. now rewrite H. Qed.

Lemma unsupported_rejected (req : Request) (res : Response) :
  sizeAccepted req -> ~ typeAccepted req ->
  securityMiddleware req res = reject req res 415 payloadUnsupported.
Proof.
  unfold sizeAccepted, typeAccepted, allowedType. intros Hs Ht.
  unfold securityMiddleware. rewrite Hs.
  destruct (truthy (contentTypeOf req) && _); [reflexivity | congruence].
Qed.

Lemma checks_passed (req : Request) (res : Response) :
  sizeAccepted req -> typeAccepted req ->
  securityMiddleware req res
  = if isObject (body req) then
      match getObjectDepth (body req) 0 with
      | Throw e =>
          {| completed := Throw e; request := req; response := res;
             nextCalled := false |}
      | Normal depth =>
          if (MAX_DEPTH <? depth)%nat then reject req res 400 payloadTooDeep
          else finish (withBody req (sanitizeDeep (body req))) res
      end
    else finish req res.
Proof.
  unfold sizeAccepted, typeAccepted, allowedType. intros Hs Ht.
  unfold securityMiddleware. rewrite Hs, Ht.
  destruct (isObject (body req)) eqn:Hobj; [|reflexivity].
  destruct (getObjectDepth (body req) 0) as [d|e] eqn:Hd; [|reflexivity].
  destruct (MAX_DEPTH <? d)%nat; [reflexivity|].
  rewrite (sanitizeObject_shadowFree _ (getObjectDepth_normal_shadowFree _ _ _ Hd)).
  now rewrite Hobj.
Qed.

Lemma too_deep_rejected (req : Request) (res : Response) (d : nat) :
  sizeAccepted req -> typeAccepted req -> isObject (body req) = true ->
  getObjectDepth (body req) 0 = Normal d -> (MAX_DEPTH < d)%nat ->
  securityMiddleware req res = reject req res 400 payloadTooDeep.
Proof.
  intros Hs Ht Hobj Hd Hlt. rewrite (checks_passed _ _ Hs Ht), Hobj, Hd.
  destruct (Nat.ltb_spec MAX_DEPTH d); [reflexivity | lia].
Qed.

(** Apart from bodies that shadow hasOwnProperty, a request within the
    three limits is passed on, sanitized, with the two headers set. *)
Lemma within_limits_passed (req : Request) (res : Response) :
  sizeAccepted req -> typeAccepted req -> shadowFree (body req) = true ->
  (isObject (body req) = true -> (nestingDepth 0 (body req) <= MAX_DEPTH)%nat) ->
  securityMiddleware req res
  = finish (if isObject (body req)
            then withBody req (sanitizeDeep (body req)) else req) res.
Proof.
  intros Hs Ht Hfree Hdepth. rewrite (checks_passed _ _ Hs Ht).
  destruct (isObject (body req)); [|reflexivity].
  rewrite (getObjectDepth_shadowFree _ Hfree).
  destruct (Nat.ltb_spec MAX_DEPTH (nestingDepth 0 (body req))); [|reflexivity].
  specialize (Hdepth eq_refl). lia.
Qed.

Lemma finish_headers (req : Request) (res : Response) :
  responseHeaders (response (finish req res)) !! "X-Content-Type-Options"
  = Some (lit "nosniff")
  /\ responseHeaders (response (finish req res)) !! "X-RateLimit-Limit"
     = Some (lit "100").
Proof.
  cbn [finish response setHeader responseHeaders]. split.
  - apply lookup_insert_eq.
  - rewrite lookup_insert_ne by discriminate. apply lookup_insert_eq.
Qed.

(** The ways a call can end. *)
Lemma securityMiddleware_cases (req : Request) (res : Response) :
  (gt (contentLengthOf req) MAX_SIZE = true
   /\ securityMiddleware req res = reject req res 413 payloadTooLarge)
  \/ (sizeAccepted req /\ ~ typeAccepted req
      /\ securityMiddleware req res = reject req res 415 payloadUnsupported)
  \/ (sizeAccepted req /\ typeAccepted req /\ isObject (body req) = true
      /\ exists d, getObjectDepth (body req) 0 = Normal d /\ (MAX_DEPTH < d)%nat
         /\ securityMiddleware req res = reject req res 400 payloadTooDeep)
  \/ (sizeAccepted req /\ typeAccepted req /\ isObject (body req) = true
      /\ exists e, getObjectDepth (body req) 0 = Throw e
         /\ securityMiddleware req res
            = {| completed := Throw e; request := req; response := res;
                 nextCalled := false |})
  \/ (sizeAccepted req /\ typeAccepted req
      /\ (isObject (body req) = true ->
          exists d, getObjectDepth (body req) 0 = Normal d /\ (d <= MAX_DEPTH)%nat)
      /\ securityMiddleware req res
         = finish (if isObject (body req)
                   then withBody req (sanitizeDeep (body req)) else req) res).
Proof.
  destruct (gt (contentLengthOf req) MAX_SIZE) eqn:Hs.
  { left. split; [reflexivity | now apply too_large_rejected]. }
  right.
  destruct (truthy (contentTypeOf req) && negb (allowedType (contentTypeOf req)))
    eqn:Ht.
  { left. assert (~ typeAccepted req) by (unfold typeAccepted; congruence).
    repeat split; try assumption. now apply unsupported_rejected. }
  right.
  rewrite (checks_passed req res Hs Ht).
  destruct (isObject (body req)) eqn:Hobj.
  - destruct (getObjectDepth (body req) 0) as [d|e] eqn:Hd.
    + destruct (Nat.ltb_spec MAX_DEPTH d).
      * left. repeat split; try assumption. exists d. auto.
      * right; right. repeat split; try assumption. intros _. exists d. auto.
    + right; left. repeat split; try assumption. exists e. auto.
  - right; right. repeat split; try assumption. discriminate.
Qed.

Lemma rejected_reject (req : Request) (res : Response) (code : Z) (payload : value) :
  rejected (reject req res code payload) code payload.
Proof. repeat split. Qed.

Lemma rejected_reject_inv (req : Request) (res : Response) (code code' : Z)
  (payload payload' : value) :
  rejected (reject req res code payload) code' payload' ->
  code = code' /\ payload = payload'.
Proof. intros (_ & _ & Hc & Hp). cbn in Hc, Hp. split; congruence. Qed.

(** Case analysis on the way the call ended; E is the equation for the
    call in each case. *)
Ltac outcome_cases req res E :=
  destruct (securityMiddleware_cases req res)
    as [[Hs E]|[(Hs & Ht & E)|[(Hs & Ht & Hobj & d & Hd & Hlt & E)
       |[(Hs & Ht & Hobj & e & Hd & E)|(Hs & Ht & Hd & E)]]]].

(** Closes a case in which H claims a rejection that did not happen:
    another status, a thrown error, or a call of [next]. *)
Ltac not_this_rejection H :=
  solve [ apply rejected_reject_inv in H as [? _]; discriminate
        | destruct H as [? _]; discriminate
        | destruct H as (_ & ? & _); discriminate ].

Lemma gt_true (a : number) (b : Z) :
  gt a b = true <-> exists n, a = Int n /\ (b < n)%Z.
Proof.
  destruct a as [|z]; cbn [gt]; split.
  - discriminate.
  - intros (n & Hn & _). discriminate.
  - intros H. exists z. split; [reflexivity | lia].
  - intros (n & [= <-] & Hlt). lia.
Qed.

Lemma sameOutcome_same_inputs (req1 req2 : Request) (res : Response) :
  gt (contentLengthOf req1) MAX_SIZE = gt (contentLengthOf req2) MAX_SIZE ->
  contentTypeOf req1 = contentTypeOf req2 -> body req1 = body req2 ->
  sameOutcome (securityMiddleware req1 res) (securityMiddleware req2 res).
Proof.
  intros Hs Ht Hb. unfold securityMiddleware. cbv zeta. rewrite Hs, Ht, Hb.
  unfold sameOutcome.
  destruct (gt (contentLengthOf req2) MAX_SIZE); [now cbn|].
  destruct (truthy (contentTypeOf req2) && _); [now cbn|].
  destruct (isObject (body req2)); [|now cbn].
  destruct (getObjectDepth (body req2) 0) as [d|e]; [|now cbn].
  destruct (MAX_DEPTH <? d)%nat; [now cbn|].
  destruct (sanitizeObject (body req2)) as [b' [u|e]]; now cbn.
Qed.

(** C4: the call ends in the 413 rejection exactly when [parseInt] of
    the content-length header gives an integer above 1048576.  A header
    that is missing, or one of which [parseInt] makes nothing, never
    does, and the call then ends as it does with the header 0. *)
Theorem C4_size_check (req : Request) (res : Response) :
  (rejected (securityMiddleware req res) 413 payloadTooLarge
   <-> exists n, contentLengthOf req = Int n /\ (1048576 < n)%Z)
  /\ payloadTooLarge
     = VObject [ (lit "success", VBool false);
                 (lit "error", str "Request entity too large");
                 (lit "maxSize", str "1048576 bytes") ]
  /\ (headers req !! "content-length" = None -> contentLengthOf req = Int 0)
  /\ (headers req !! "content-length" = None \/ contentLengthOf req = NaN ->
      ~ rejected (securityMiddleware req res) 413 payloadTooLarge
      /\ sameOutcome (securityMiddleware req res)
           (securityMiddleware (withHeader req "content-length" (lit "0")) res)).
Proof.
  assert (Hiff : rejected (securityMiddleware req res) 413 payloadTooLarge
                 <-> exists n, contentLengthOf req = Int n /\ (1048576 < n)%Z).
  { rewrite <- (gt_true (contentLengthOf req) MAX_SIZE). split.
    - intros Hrej.
      outcome_cases req res E; rewrite E in Hrej;
        try not_this_rejection Hrej. exact Hs.
    - intros Hs. rewrite (too_large_rejected _ _ Hs). apply rejected_reject. }
  assert (Hmissing : headers req !! "content-length" = None ->
                     contentLengthOf req = Int 0).
  { intros H. unfold contentLengthOf. now rewrite H. }
  split; [exact Hiff|]. split; [reflexivity|]. split; [exact Hmissing|].
  intros Hno.
  assert (Hgt : gt (contentLengthOf req) MAX_SIZE = false).
  { destruct Hno as [H|H]; [rewrite (Hmissing H) | rewrite H]; reflexivity. }
  split.
  - rewrite Hiff, <- (gt_true (contentLengthOf req) MAX_SIZE). congruence.
  - apply sameOutcome_same_inputs.
    + rewrite Hgt. unfold contentLengthOf, withHeader. cbn [headers].
      now rewrite lookup_insert_eq.
    + unfold contentTypeOf, withHeader. cbn [headers].
      now rewrite lookup_insert_ne by discriminate.
    + reflexivity.
Qed.

Lemma C4_witness :
  ~ rejected (securityMiddleware
                (mkRequest [("content-length", lit "ten"); ("content-type", lit "text/plain")]
                           VUndefined) freshResponse) 413 payloadTooLarge
  /\ sameOutcome
       (securityMiddleware
          (mkRequest [("content-length", lit "ten"); ("content-type", lit "text/plain")]
                     VUndefined) freshResponse)
       (securityMiddleware
          (withHeader
             (mkRequest [("content-length", lit "ten"); ("content-type", lit "text/plain")]
                        VUndefined) "content-length" (lit "0")) freshResponse).
Proof.
  apply (C4_size_check
           (mkRequest [("content-length", lit "ten"); ("content-type", lit "text/plain")]
                      VUndefined) freshResponse).
  right. vm_compute. reflexivity.
Defined.

Example size_limit_boundary :
  rejected (securityMiddleware
              (mkRequest [("content-length", lit "1048577");
                          ("content-type", lit "application/json")] (VObject []))
              freshResponse) 413 payloadTooLarge
  /\ passed (securityMiddleware
               (mkRequest [("content-length", lit "1048576");
                           ("content-type", lit "application/json")] (VObject []))
               freshResponse).
Proof. vm_compute. repeat split. Qed.

Lemma typeRejected_iff (req : Request) :
  ~ typeAccepted req
  <-> exists h : jsstring, headers req !! "content-type" = Some h /\ h <> []
        /\ includes h (lit "application/json") = false
        /\ includes h (lit "application/x-www-form-urlencoded") = false
        /\ includes h (lit "multipart/form-data") = false.
Proof.
  unfold typeAccepted, contentTypeOf, allowedType, allowedTypes.
  destruct (headers req !! "content-type") as [[|c h]|];
    cbn [orDefault truthy existsb andb negb].
  - split; [intros H; now contradict H|].
    intros (h & [= <-] & Hne & _). now contradict Hne.
  - split.
    + intros H. exists (c :: h). split; [reflexivity|]. split; [discriminate|].
      destruct (includes (c :: h) (lit "application/json"));
        [now contradict H|].
      destruct (includes (c :: h) (lit "application/x-www-form-urlencoded"));
        [now contradict H|].
      destruct (includes (c :: h) (lit "multipart/form-data"));
        [now contradict H|].
      auto.
    + intros (h' & [= <-] & _ & H1 & H2 & H3). rewrite H1, H2, H3. discriminate.
  - split; [intros H; now contradict H|]. intros (h & [=] & _).
Qed.

(** C5, counterexample: a content-type that is present, not empty and
    not allowed, on a request whose declared size is over the limit; the
    size check comes first and the call ends with 413. *)
Lemma C5_counterexample :
  let req := mkRequest [("content-length", lit "1048577");
                        ("content-type", lit "text/plain")] (VObject []) in
  (headers req !! "content-type" = Some (lit "text/plain")
   /\ lit "text/plain" <> []
   /\ includes (lit "text/plain") (lit "application/json") = false
   /\ includes (lit "text/plain") (lit "application/x-www-form-urlencoded") = false
   /\ includes (lit "text/plain") (lit "multipart/form-data") = false)
  /\ ~ rejected (securityMiddleware req freshResponse) 415 payloadUnsupported
  /\ rejected (securityMiddleware req freshResponse) 413 payloadTooLarge.
Proof.
  cbv zeta. split; [|split].
  - vm_compute. repeat split. discriminate.
  - intros (_ & _ & H & _). vm_compute in H. discriminate.
  - vm_compute. repeat split.
Qed.

(** C5, as amended: the call ends in the 415 rejection exactly when the
    declared size passed the first check and the content-type header is
    present, not empty, and contains none of the three allowed types; a
    missing or empty content-type header never ends in it. *)
Theorem C5_type_check (req : Request) (res : Response) :
  (rejected (securityMiddleware req res) 415 payloadUnsupported
   <-> sizeAccepted req
       /\ exists h : jsstring, headers req !! "content-type" = Some h /\ h <> []
            /\ includes h (lit "application/json") = false
            /\ includes h (lit "application/x-www-form-urlencoded") = false
            /\ includes h (lit "multipart/form-data") = false)
  /\ payloadUnsupported
     = VObject [ (lit "success", VBool false);
                 (lit "error", str "Unsupported media type");
                 (lit "allowedTypes",
                  VArray [ str "application/json";
                           str "application/x-www-form-urlencoded";
                           str "multipart/form-data" ]) ]
  /\ (headers req !! "content-type" = None
      \/ headers req !! "content-type" = Some ([] : jsstring) ->
      ~ rejected (securityMiddleware req res) 415 payloadUnsupported).
Proof.
  assert (Hiff : rejected (securityMiddleware req res) 415 payloadUnsupported
                 <-> sizeAccepted req /\ ~ typeAccepted req).
  { split.
    - intros Hrej.
      outcome_cases req res E; rewrite E in Hrej;
        try not_this_rejection Hrej. exact (conj Hs Ht).
    - intros [Hs Ht]. rewrite (unsupported_rejected _ _ Hs Ht).
      apply rejected_reject. }
  split; [now rewrite Hiff, typeRejected_iff|].
  split; [reflexivity|].
  intros Hno. rewrite Hiff, typeRejected_iff.
  intros (_ & h & Hh & Hne & _).
  destruct Hno as [H|H]; [congruence|].
  assert (h = []) by congruence. contradiction.
Qed.

Lemma C5_witness :
  ~ rejected (securityMiddleware
                (mkRequest [("content-length", lit "12")] (VString (lit "x")))
                freshResponse) 415 payloadUnsupported.
Proof.
  apply (C5_type_check
           (mkRequest [("content-length", lit "12")] (VString (lit "x")))
           freshResponse).
  left. vm_compute. reflexivity.
Defined.

Example text_plain_rejected :
  rejected (securityMiddleware
              (mkRequest [("content-type", lit "text/plain")] (VObject []))
              freshResponse) 415 payloadUnsupported.
Proof. vm_compute. repeat split. Qed.

Example allowed_type_with_charset_passed :
  passed (securityMiddleware
            (mkRequest [("content-type", lit "application/json; charset=utf-8")]
                       (VObject [])) freshResponse).
Proof. vm_compute. repeat split. Qed.

(** *** The depth check *)

Lemma getOwn_single_a (v : value) :
  getOwn [(lit "a", v)] (lit "hasOwnProperty") = None.
Proof. vm_compute. reflexivity. Qed.

Lemma getObjectDepth_scalar (leaf : value) (cur : nat) :
  isObject leaf = false -> getObjectDepth leaf cur = Normal cur.
Proof. destruct leaf; try discriminate; reflexivity. Qed.

Lemma getObjectDepth_nested (n : nat) (leaf : value) :
  isObject leaf = false ->
  forall cur, getObjectDepth (nested n leaf) cur = Normal (cur + n)%nat.
Proof.
  intros Hleaf. induction n as [|n IH]; intros cur; cbn [nested].
  - rewrite Nat.add_0_r. now apply getObjectDepth_scalar.
  - cbn [getObjectDepth]. rewrite callHasOwnProperty_object, getOwn_single_a.
    cbn [depthLoop bind propValue snd]. rewrite IH. cbn [bind].
    f_equal. lia.
Qed.

(** C3, counterexample: a body with a scalar at depth 11 on a request
    whose declared size is over the limit; the size check comes first
    and the call ends with 413. *)
Lemma C3_counterexample :
  let req := mkRequest [("content-length", lit "1048577");
                        ("content-type", lit "application/json")]
                       (nested 11 (VNumber 1%float)) in
  isObject (body req) = true
  /\ getObjectDepth (body req) 0 = Normal 11%nat
  /\ ~ rejected (securityMiddleware req freshResponse) 400 payloadTooDeep
  /\ rejected (securityMiddleware req freshResponse) 413 payloadTooLarge.
Proof.
  cbv zeta. split; [reflexivity|]. split; [reflexivity|]. split.
  - intros (_ & _ & H & _). vm_compute in H. discriminate.
  - vm_compute. repeat split.
Qed.

(** C3, as amended: on a request that passed the size and content-type
    checks, a container body for which [getObjectDepth] computes a depth
    above 10 ends in the 400 rejection, and one with a depth of at most
    10 is passed on.  The computed depth is the nesting depth of the
    specification.  A scalar under 11 mappings is rejected, a scalar
    under 10 is passed on. *)
Theorem C3_depth_check (req : Request) (res : Response) :
  sizeAccepted req -> typeAccepted req ->
  (forall d, isObject (body req) = true ->
             getObjectDepth (body req) 0 = Normal d ->
             d = nestingDepth 0 (body req)
             /\ ((10 < d)%nat ->
                 rejected (securityMiddleware req res) 400 payloadTooDeep)
             /\ ((d <= 10)%nat -> passed (securityMiddleware req res)))
  /\ (forall leaf, isObject leaf = false -> body req = nested 11 leaf ->
       rejected (securityMiddleware req res) 400 payloadTooDeep)
  /\ (forall leaf, isObject leaf = false -> body req = nested 10 leaf ->
       passed (securityMiddleware req res))
  /\ payloadTooDeep
     = VObject [ (lit "success", VBool false);
                 (lit "error", str "Request object too deeply nested");
                 (lit "maxDepth", VNumber 10%float) ].
Proof.
  intros Hs Ht.
  assert (Hmain : forall d, isObject (body req) = true ->
             getObjectDepth (body req) 0 = Normal d ->
             d = nestingDepth 0 (body req)
             /\ ((10 < d)%nat ->
                 rejected (securityMiddleware req res) 400 payloadTooDeep)
             /\ ((d <= 10)%nat -> passed (securityMiddleware req res))).
  { intros d Hobj Hd. split; [now apply getObjectDepth_normal|]. split.
    - intros Hlt. rewrite (too_deep_rejected req res d Hs Ht Hobj Hd Hlt).
      apply rejected_reject.
    - intros Hle. rewrite (checks_passed req res Hs Ht), Hobj, Hd.
      unfold MAX_DEPTH. destruct (Nat.ltb_spec 10 d); [lia|]. split; reflexivity. }
  split; [exact Hmain|]. split; [|split; [|reflexivity]].
  - intros leaf Hleaf Hbody.
    apply (Hmain 11%nat); [rewrite Hbody; reflexivity| |lia].
    rewrite Hbody. now apply getObjectDepth_nested.
  - intros leaf Hleaf Hbody.
    apply (Hmain 10%nat); [rewrite Hbody; reflexivity| |lia].
    rewrite Hbody. now apply getObjectDepth_nested.
Qed.

Lemma C3_witness :
  rejected (securityMiddleware
              (mkRequest [("content-type", lit "application/json")]
                         (nested 11 (VString (lit "deep")))) freshResponse)
           400 payloadTooDeep
  /\ passed (securityMiddleware
               (mkRequest [("content-type", lit "application/json")]
                          (nested 10 (VString (lit "deep")))) freshResponse).
Proof.
  split.
  - apply (C3_depth_check
             (mkRequest [("content-type", lit "application/json")]
                        (nested 11 (VString (lit "deep")))) freshResponse)
      with (leaf := VString (lit "deep")); vm_compute; reflexivity.
  - apply (C3_depth_check
             (mkRequest [("content-type", lit "application/json")]
                        (nested 10 (VString (lit "deep")))) freshResponse)
      with (leaf := VString (lit "deep")); vm_compute; reflexivity.
Defined.

Example empty_containers_do_not_count :
  getObjectDepth (VObject [(lit "a", VArray [VObject []])]) 0 = Normal 2%nat
  /\ getObjectDepth (VArray []) 0 = Normal 0%nat
  /\ getObjectDepth (VArray [VNull; VArray [VBool true]]) 0 = Normal 2%nat.
Proof. repeat split. Qed.

(** *** The order of the checks *)

(** C6: the size check decides first, whatever the content-type and the
    body are; then the content-type check, whatever the body is; then
    the depth check.  A call that ends in a rejection leaves the request
    (so its body) as it was and sets no response header, and a body that
    the call changed belongs to a request that passed all three checks. *)
Theorem C6_checks_in_order (req : Request) (res : Response) :
  (gt (contentLengthOf req) MAX_SIZE = true ->
   securityMiddleware req res = reject req res 413 payloadTooLarge)
  /\ (sizeAccepted req -> ~ typeAccepted req ->
      securityMiddleware req res = reject req res 415 payloadUnsupported)
  /\ (sizeAccepted req -> typeAccepted req -> isObject (body req) = true ->
      forall d, getObjectDepth (body req) 0 = Normal d -> (10 < d)%nat ->
      securityMiddleware req res = reject req res 400 payloadTooDeep)
  /\ (forall code payload,
        rejected (securityMiddleware req res) code payload ->
        (code = 413 \/ code = 415 \/ code = 400)%Z
        /\ request (securityMiddleware req res) = req
        /\ responseHeaders (response (securityMiddleware req res))
           = responseHeaders res)
  /\ (body (request (securityMiddleware req res)) <> body req ->
      sizeAccepted req /\ typeAccepted req
      /\ (exists d, getObjectDepth (body req) 0 = Normal d /\ (d <= 10)%nat)
      /\ passed (securityMiddleware req res)).
Proof.
  split; [apply too_large_rejected|].
  split; [apply unsupported_rejected|].
  split; [intros Hs Ht Hobj d Hd Hlt; now apply (too_deep_rejected req res d)|].
  split.
  - intros code payload Hrej.
    outcome_cases req res E; rewrite E in Hrej |- *;
      try (apply rejected_reject_inv in Hrej as [<- _]; now auto);
      not_this_rejection Hrej.
  - intros Hchanged.
    outcome_cases req res E; rewrite E in Hchanged |- *;
      try (now contradict Hchanged).
    destruct (isObject (body req)); [|now contradict Hchanged].
    repeat split; try assumption. now apply Hd.
Qed.

Lemma C6_witness :
  securityMiddleware
    (mkRequest [("content-length", lit "2000000"); ("content-type", lit "text/plain")]
               (nested 11 (VString (lit "javascript:x")))) freshResponse
  = reject
      (mkRequest [("content-length", lit "2000000"); ("content-type", lit "text/plain")]
                 (nested 11 (VString (lit "javascript:x")))) freshResponse
      413 payloadTooLarge.
Proof.
  apply (C6_checks_in_order
           (mkRequest [("content-length", lit "2000000"); ("content-type", lit "text/plain")]
                      (nested 11 (VString (lit "javascript:x")))) freshResponse).
  vm_compute. reflexivity.
Defined.

Example type_check_before_depth_check :
  rejected (securityMiddleware
              (mkRequest [("content-length", lit "40"); ("content-type", lit "text/plain")]
                         (nested 11 (VString (lit "javascript:x")))) freshResponse)
           415 payloadUnsupported.
Proof. vm_compute. repeat split. Qed.

(** *** Requests within the limits *)

(** A request within the three limits whose body has no property named
    hasOwnProperty is passed on, with its strings sanitized and the two
    headers set. *)
Lemma unshadowed_request_passed (req : Request) (res : Response) (n : Z) :
  contentLengthOf req = Int n -> (n <= 1048576)%Z ->
  allowedType (contentTypeOf req) = true ->
  (isObject (body req) = true -> (nestingDepth 0 (body req) <= 10)%nat) ->
  shadowFree (body req) = true ->
  passed (securityMiddleware req res)
  /\ responseHeaders (response (securityMiddleware req res))
       !! "X-Content-Type-Options" = Some (lit "nosniff")
  /\ responseHeaders (response (securityMiddleware req res))
       !! "X-RateLimit-Limit" = Some (lit "100")
  /\ body (request (securityMiddleware req res))
     = if isObject (body req) then sanitizeDeep (body req) else body req.
Proof.
  intros Hn Hle Hallowed Hdepth Hfree.
  assert (Hs : sizeAccepted req).
  { unfold sizeAccepted. rewrite Hn. cbn [gt]. unfold MAX_SIZE. lia. }
  assert (Ht : typeAccepted req).
  { unfold typeAccepted. rewrite Hallowed. apply andb_false_r. }
  rewrite (within_limits_passed req res Hs Ht Hfree Hdepth).
  split; [split; reflexivity|].
  split; [apply finish_headers|]. split; [apply finish_headers|].
  now destruct (isObject (body req)).
Qed.

(** C1, at the failing input: a JSON body with a property named
    hasOwnProperty, within the three limits.  The call of that property
    in [getObjectDepth] throws; [next] is not called and the headers are
    not set. *)
Lemma C1_shadowed_hasOwnProperty_throws :
  let req := mkRequest [("content-length", lit "20");
                        ("content-type", lit "application/json")]
                       (VObject [(lit "hasOwnProperty", VNumber 1%float)]) in
  let e := securityMiddleware req freshResponse in
  (contentLengthOf req = Int 20
   /\ allowedType (contentTypeOf req) = true
   /\ nestingDepth 0 (body req) = 1%nat)
  /\ completed e = Throw (TypeError "obj.hasOwnProperty is not a function")
  /\ nextCalled e = false
  /\ responseHeaders (response e) !! "X-Content-Type-Options" = None
  /\ responseHeaders (response e) !! "X-RateLimit-Limit" = None
  /\ ~ passed e.
Proof.
  cbv zeta. split; [repeat split|]. split; [reflexivity|].
  split; [reflexivity|]. split; [reflexivity|]. split; [reflexivity|].
  intros [H _]. vm_compute in H. discriminate.
Qed.

End MiddlewareFacts.

(** ** What a match consumes *)

Module MatchFacts.

Import RegExp RegExpFacts.

Section IterateReach.

Context (step : cursor -> (cursor -> option cursor) -> option cursor).
Hypothesis step_reaches : forall x k z,
  step x k = Some z -> exists y, ahead x y /\ k y = Some z.

Lemma iterate_reaches (k : cursor -> option cursor) (bound : jsstring) :
  forall x z, iterate step k bound x = Some z ->
  exists y, ahead x y /\ k y = Some z.
Proof using step_reaches.
  induction bound as [|c bound IH]; intros x z H; cbn [iterate] in H.
  - exists x. split; [apply ahead_refl | exact H].
  - destruct (step x _) as [z'|] eqn:Hstep.
    + injection H as ->.
      destruct (step_reaches _ _ _ Hstep) as (y & Hy & Hk).
      destruct (index x <? index y); [|discriminate].
      destruct (IH _ _ Hk) as (y' & Hy' & Hk').
      exists y'. split; [eapply ahead_trans; eassumption | exact Hk'].
    + exists x. split; [apply ahead_refl | exact H].
Qed.

End IterateReach.

(** A successful match hands a position at or after its start to the
    continuation: the matcher only moves forward in the input. *)
Lemma exec_reaches (r : regex) :
  forall x k z, exec r x k = Some z -> exists y, ahead x y /\ k y = Some z.
Proof.
  induction r as [|p|r1 IH1 r2 IH2|r1 IH1|r1 IH1|]; intros x k z H;
    cbn [exec] in H.
  - exists x. split; [apply ahead_refl | exact H].
  - destruct (remaining x) as [|c s'] eqn:Hx; [discriminate|].
    destruct (p c); [|discriminate].
    eexists. split; [apply (ahead_step x c s' Hx) | exact H].
  - destruct (IH1 _ _ _ H) as (y & Hy & H2).
    destruct (IH2 _ _ _ H2) as (y' & Hy' & Hk).
    exists y'. split; [eapply ahead_trans; eassumption | exact Hk].
  - now apply (iterate_reaches (exec r1) IH1 k (remaining x)).
  - destruct (exec r1 x Some); [discriminate|].
    exists x. split; [apply ahead_refl | exact H].
  - destruct (xorb _ _); [|discriminate].
    exists x. split; [apply ahead_refl | exact H].
Qed.

Lemma exec_Seq (r1 r2 : regex) (x : cursor) (k : cursor -> option cursor) :
  exec (Seq r1 r2) x k = exec r1 x (fun y => exec r2 y k).
Proof. reflexivity. Qed.

Lemma ahead_In (x y : cursor) (c : code_unit) :
  ahead x y -> In c (remaining y) -> In c (remaining x).
Proof. intros (pre & -> & _) H. apply in_or_app. now right. Qed.

Lemma exec_Char_In (p : code_unit -> bool) (x : cursor)
  (k : cursor -> option cursor) (z : cursor) :
  exec (Char p) x k = Some z ->
  exists c, In c (remaining x) /\ p c = true.
Proof.
  cbn [exec]. destruct (remaining x) as [|c s']; [discriminate|].
  destruct (p c) eqn:Hp; [|discriminate].
  intros _. exists c. split; [now left | exact Hp].
Qed.

Lemma eq_ignoreCase_not_letter (p c : code_unit) :
  p < 65 -> eq_ignoreCase p c = true -> c = p.
Proof.
  unfold eq_ignoreCase, canonicalize, between. intros Hp H.
  destruct (N.leb_spec 97 p); [lia|]. cbn [andb] in H.
  destruct (N.leb_spec 97 c), (N.leb_spec c 122); cbn [andb] in H;
    apply N.eqb_eq in H; lia.
Qed.

(** A match of pattern text consumes, for each character of the text, a
    code unit that equals it up to case. *)
Lemma literal_In (text : string) (a : ascii) :
  In a (list_ascii_of_string text) ->
  forall x k z, exec (literal text) x k = Some z ->
  exists c, In c (remaining x) /\ eq_ignoreCase (N_of_ascii a) c = true.
Proof.
  induction text as [|b text IH]; cbn [list_ascii_of_string In]; [tauto|].
  intros Hin x k z H.
  change (literal (String.String b text))
    with (Seq (Char (eq_ignoreCase (N_of_ascii b))) (literal text)) in H.
  cbn [exec] in H.
  destruct (remaining x) as [|c s'] eqn:Hx; [discriminate|].
  destruct (eq_ignoreCase (N_of_ascii b) c) eqn:Hc; [|discriminate].
  destruct Hin as [->|Hin].
  - exists c. split; [now left | exact Hc].
  - destruct (IH Hin _ _ _ H) as (c' & Hc' & He).
    exists c'. split; [now right | exact He].
Qed.

Lemma scriptBlock_needs_lessThan (x : cursor) (n : N) :
  matchAt scriptBlock x = Some n -> In 60 (remaining x).
Proof.
  unfold matchAt. destruct (exec scriptBlock x Some) as [z|] eqn:H; [|discriminate].
  intros _. unfold scriptBlock in H. cbn [seq] in H.
  change (exec (literal "<script") x
            (fun y => exec (seq [WordBoundary; Star notLessThan;
                                 Star (seq [NotAhead (literal "</script>");
                                            lessThan; Star notLessThan]);
                                 literal "</script>"]) y Some) = Some z) in H.
  destruct (literal_In "<script" "<"%char ltac:(now left) _ _ _ H)
    as (c & Hc & He).
  apply eq_ignoreCase_not_letter in He; [now subst | reflexivity].
Qed.

Lemma javascriptScheme_needs_colon (x : cursor) (n : N) :
  matchAt javascriptScheme x = Some n -> In 58 (remaining x).
Proof.
  unfold matchAt.
  destruct (exec javascriptScheme x Some) as [z|] eqn:H; [|discriminate].
  intros _.
  destruct (literal_In "javascript:" ":"%char
              ltac:(cbn; tauto) _ _ _ H) as (c & Hc & He).
  apply eq_ignoreCase_not_letter in He; [now subst | reflexivity].
Qed.

Lemma inlineHandler_needs_equals (x : cursor) (n : N) :
  matchAt inlineHandler x = Some n -> In 61 (remaining x).
Proof.
  unfold matchAt.
  destruct (exec inlineHandler x Some) as [z|] eqn:H; [|discriminate].
  intros _. unfold inlineHandler in H. cbn [seq] in H.
  rewrite exec_Seq in H. apply exec_reaches in H as (y1 & Hy1 & H).
  rewrite exec_Seq in H. apply exec_reaches in H as (y2 & Hy2 & H).
  rewrite exec_Seq in H. apply exec_reaches in H as (y3 & Hy3 & H).
  apply exec_Char_In in H as (c & Hc & He).
  apply N.eqb_eq in He. subst c.
  eapply ahead_In; [exact Hy1|]. eapply ahead_In; [exact Hy2|].
  eapply ahead_In; [exact Hy3|]. exact Hc.
Qed.

(** A pattern whose every match needs the code unit c is absent from a
    string without c. *)
Lemma absentFrom_without (r : regex) (c : code_unit) :
  (forall x n, matchAt r x = Some n -> In c (remaining x)) ->
  forall s bef i, ~ In c s -> absentFrom r bef i s = true.
Proof.
  intros Hneeds. induction s as [|d s IH]; intros bef i Hc;
    cbn [absentFrom]; [reflexivity|].
  destruct (matchAt r (Cursor bef (d :: s) i)) as [n|] eqn:Hm.
  - exfalso. apply Hc. exact (Hneeds _ _ Hm).
  - apply IH. intros Hin. apply Hc. now right.
Qed.

End MatchFacts.

(** ** What the string transform keeps and what it removes *)

Module SanitizerFacts.

Import RegExp Guard Notions Measures MatchFacts StringFacts GuardFacts.

Lemma replaceFrom_sublist (r : regex) (s : jsstring) :
  forall d bef i, sublist (replaceFrom r d bef i s) s.
Proof.
  induction s as [|c s IH]; intros d bef i; cbn [replaceFrom].
  - constructor.
  - destruct d as [|d].
    + destruct (matchAt r (Cursor bef (c :: s) i)) as [len|].
      * destruct (N.to_nat len); [apply sublist_skip | apply sublist_cons];
          apply IH.
      * apply sublist_skip, IH.
    + apply sublist_cons, IH.
Qed.

Lemma replaceAll_sublist (r : regex) (s : jsstring) : sublist (replaceAll r s) s.
Proof. apply replaceFrom_sublist. Qed.

Lemma substitute_sublist (s : jsstring) : sublist (substitute s) s.
Proof.
  unfold substitute.
  etransitivity; [apply replaceAll_sublist|].
  etransitivity; apply replaceAll_sublist.
Qed.

(** X8: the transform only deletes.  The sanitized string is a
    subsequence of the string it was made from: no code unit is added,
    changed or moved, and the result is never longer than the input. *)
Theorem sanitizeString_only_deletes (s : jsstring) :
  sublist (sanitizeString s) s
  /\ jslength (sanitizeString s) <= jslength s
  /\ (forall c, In c (sanitizeString s) -> In c s).
Proof.
  assert (Hsub : sublist (sanitizeString s) s).
  { unfold sanitizeString. rewrite truncate_firstn. unfold substring0.
    etransitivity; [apply sublist_take | apply substitute_sublist]. }
  split; [exact Hsub|]. split.
  - unfold jslength. apply sublist_length in Hsub. lia.
  - intros c Hc. apply list_elem_of_In. apply list_elem_of_In in Hc.
    exact (sublist_subseteq _ _ Hsub c Hc).
Qed.

Lemma plainText_spec (s : jsstring) :
  plainText s = true -> ~ In 60 s /\ ~ In 58 s /\ ~ In 61 s.
Proof.
  unfold plainText. rewrite forallb_forall. intros H.
  repeat split; intros Hin; apply H in Hin; discriminate.
Qed.

(** X10: a string without less-than sign, colon and equals sign is left
    as it is by the three replacements; sanitizing it only cuts it at
    10000 code units, and does nothing when it is not longer. *)
Theorem sanitizeString_plain_text (s : jsstring) :
  plainText s = true ->
  substitute s = s
  /\ sanitizeString s = substring0 s MAX_STRING
  /\ (jslength s <= MAX_STRING -> sanitizeString s = s).
Proof.
  intros Hplain. destruct (plainText_spec s Hplain) as (Hlt & Hcolon & Heq).
  assert (Hsubst : substitute s = s).
  { apply substitute_absent.
    - apply (absentFrom_without _ 60 scriptBlock_needs_lessThan), Hlt.
    - apply (absentFrom_without _ 58 javascriptScheme_needs_colon), Hcolon.
    - apply (absentFrom_without _ 61 inlineHandler_needs_equals), Heq. }
  split; [exact Hsubst|]. unfold sanitizeString. rewrite Hsubst.
  split; [apply truncate_firstn | apply truncate_short].
Qed.

Lemma sanitizeString_plain_text_witness :
  sanitizeString (lit "Hello, world! 1 + 1 > 0 (on time)")
  = lit "Hello, world! 1 + 1 > 0 (on time)".
Proof.
  apply (sanitizeString_plain_text (lit "Hello, world! 1 + 1 > 0 (on time)"));
    vm_compute; [reflexivity | discriminate].
Defined.

Lemma sanitizeDeep_withinLimit (v : value) :
  allStrings withinLimit (sanitizeDeep v) = true.
Proof.
  induction v as [| | | | |elems IH|props IH] using value_ind;
    cbn [sanitizeDeep allStrings]; try reflexivity.
  - unfold withinLimit. apply N.leb_le, jslength_sanitizeString.
  - rewrite forallb_forall. intros v' Hv'.
    apply in_map_iff in Hv' as (v & <- & Hv).
    rewrite List.Forall_forall in IH. now apply IH.
  - rewrite forallb_forall. intros kv' Hkv'.
    apply in_map_iff in Hkv' as (kv & <- & Hkv).
    rewrite List.Forall_forall in IH. cbn [snd]. now apply IH.
Qed.

(** X9: after a call of [sanitizeObject] on a mapping or sequence that
    completed normally, no string anywhere in it, whether a property
    value or a sequence element, is longer than 10000 code units. *)
Theorem sanitizeObject_bounds_strings (obj : value) :
  isObject obj = true ->
  snd (sanitizeObject obj) = Normal tt ->
  allStrings withinLimit (fst (sanitizeObject obj)) = true.
Proof.
  intros Hobj Hnormal.
  rewrite (sanitizeObject_shadowFree obj
             (sanitizeObject_normal_shadowFree obj Hnormal)), Hobj.
  apply sanitizeDeep_withinLimit.
Qed.

Lemma sanitizeObject_bounds_strings_witness :
  allStrings withinLimit
    (fst (sanitizeObject
            (VObject [(lit "bio", VString (repeat 120 (N.to_nat 10007)));
                      (lit "tags", VArray [VString (repeat 121 (N.to_nat 10001))])])))
  = true.
Proof.
  apply sanitizeObject_bounds_strings; vm_compute; reflexivity.
Defined.

End SanitizerFacts.

(** ** What [getObjectDepth] computes, and when the two helpers throw *)

Module DepthFacts.

Import Guard Notions Measures LoopFacts GuardFacts.

Section FirstThrow.

Context {A : Type} (valueOf : A -> value) (assign : A -> value -> A).

(** When the iterations over good entries return and those over the
    others throw err, a loop over entries that are not all good ends
    with err thrown. *)
Lemma depthLoop_first_throw (good : A -> bool) (f : A -> nat) (err : error)
  (recur : value -> completion nat) (entries : list A) :
  Forall (fun e => recur (valueOf e)
                   = if good e then Normal (f e) else Throw err) entries ->
  forallb good entries = false ->
  forall m, depthLoop valueOf (Normal true) recur entries m = Throw err.
Proof.
  induction 1 as [|e rest He _ IH]; cbn [forallb]; [discriminate|].
  intros Hgood m. cbn [depthLoop bind]. rewrite He.
  destruct (good e); cbn [bind andb] in *; [now apply IH | reflexivity].
Qed.

Lemma sanitizeLoop_first_throw (good : A -> bool) (err : error)
  (recur : value -> value * completion unit) (entries : list A) :
  Forall (fun e => snd (recur (valueOf e))
                   = if good e then Normal tt else Throw err) entries ->
  forallb good entries = false ->
  snd (sanitizeLoop valueOf assign (Normal true) recur entries) = Throw err.
Proof.
  induction 1 as [|e rest He _ IH]; cbn [forallb]; [discriminate|].
  intros Hgood. cbn [sanitizeLoop].
  destruct (recur (valueOf e)) as [v' c]. cbn [snd] in He. subst c.
  destruct (good e); cbn [andb] in *; [|reflexivity].
  specialize (IH Hgood).
  now destruct (sanitizeLoop valueOf assign (Normal true) recur rest).
Qed.

End FirstThrow.

Lemma getObjectDepth_shadowed (obj : value) :
  shadowFree obj = false ->
  forall cur, getObjectDepth obj cur = Throw shadowError.
Proof.
  induction obj as [| | | | |elems IH|props IH] using value_ind;
    intros Hshadow cur; try discriminate.
  - cbn [getObjectDepth shadowFree] in *. rewrite callHasOwnProperty_array.
    apply (depthLoop_first_throw elemValue shadowFree (nestingDepth (S cur)));
      [|exact Hshadow].
    rewrite List.Forall_forall in IH |- *. intros v Hv. unfold elemValue.
    rewrite Nat.add_1_r. destruct (shadowFree v) eqn:Hv'.
    + now apply getObjectDepth_shadowFree.
    + now apply IH.
  - cbn [getObjectDepth shadowFree] in *. rewrite callHasOwnProperty_object.
    destruct (getOwn props (lit "hasOwnProperty")) eqn:Hown.
    + destruct props; [discriminate | reflexivity].
    + apply (depthLoop_first_throw propValue (fun kv => shadowFree (snd kv))
               (fun kv => nestingDepth (S cur) (snd kv))); [|exact Hshadow].
      rewrite List.Forall_forall in IH |- *. intros kv Hkv. unfold propValue.
      rewrite Nat.add_1_r. destruct (shadowFree (snd kv)) eqn:Hkv'.
      * now apply getObjectDepth_shadowFree.
      * now apply (IH kv Hkv).
Qed.

(** With room on the call stack for the whole recursion, how
    [getObjectDepth] completes is decided by the value alone. *)
Lemma getObjectDepth_closed_form (obj : value) (cur : nat) :
  getObjectDepth obj cur
  = if shadowFree obj then Normal (nestingDepth cur obj)
    else Throw (TypeError "obj.hasOwnProperty is not a function").
Proof.
  destruct (shadowFree obj) eqn:H.
  - now apply getObjectDepth_shadowFree.
  - now apply getObjectDepth_shadowed.
Qed.

Lemma sanitizeObject_shadowed (obj : value) :
  shadowFree obj = false -> snd (sanitizeObject obj) = Throw shadowError.
Proof.
  induction obj as [| | | | |elems IH|props IH] using value_ind;
    intros Hshadow; try discriminate.
  - cbn [sanitizeObject shadowFree] in *. rewrite callHasOwnProperty_array.
    pose proof (sanitizeLoop_first_throw elemValue elemAssign shadowFree
                  shadowError (visit sanitizeObject) elems) as H.
    destruct (sanitizeLoop elemValue elemAssign _ _ elems) as [elems' c].
    apply H; [|exact Hshadow].
    rewrite List.Forall_forall in IH |- *. intros v Hv. unfold elemValue.
    destruct (shadowFree v) eqn:Hv'.
    + now rewrite (visit_shadowFree v (sanitizeObject_shadowFree v) Hv').
    + destruct v; try discriminate; cbn [visit]; now apply IH.
  - cbn [sanitizeObject shadowFree] in *. rewrite callHasOwnProperty_object.
    destruct (getOwn props (lit "hasOwnProperty")) eqn:Hown.
    + destruct props; [discriminate | reflexivity].
    + pose proof (sanitizeLoop_first_throw propValue propAssign
                    (fun kv => shadowFree (snd kv)) shadowError
                    (visit sanitizeObject) props) as H.
      destruct (sanitizeLoop propValue propAssign _ _ props) as [props' c].
      apply H; [|exact Hshadow].
      rewrite List.Forall_forall in IH |- *. intros [k v] Hkv.
      unfold propValue. cbn [snd]. destruct (shadowFree v) eqn:Hv'.
      * now rewrite (visit_shadowFree v (sanitizeObject_shadowFree v) Hv').
      * destruct v; try discriminate; cbn [visit]; now apply (IH _ Hkv).
Qed.

(** With room on the call stack for both recursions, the two helpers
    complete the same way on the same value. *)
Lemma sanitizeObject_completes_as_getObjectDepth (obj : value) (cur : nat) :
  snd (sanitizeObject obj)
  = match getObjectDepth obj cur with
    | Normal _ => Normal tt
    | Throw e => Throw e
    end.
Proof.
  rewrite getObjectDepth_closed_form. destruct (shadowFree obj) eqn:H.
  - now rewrite (sanitizeObject_shadowFree obj H).
  - now apply sanitizeObject_shadowed.
Qed.

Lemma foldr_max_le (xs : list nat) (m bound : nat) :
  (m <= bound)%nat -> Forall (fun x => (x <= bound)%nat) xs ->
  (foldr Nat.max m xs <= bound)%nat.
Proof. intros Hm. induction 1; cbn [foldr]; lia. Qed.

Lemma nestingDepth_height (v : value) :
  forall cur, (nestingDepth cur v <= cur + height v)%nat
              /\ (cur + height v <= S (nestingDepth cur v))%nat.
Proof.
  induction v as [| | | | |elems IH|props IH] using value_ind; intros cur;
    cbn [nestingDepth height]; try lia.
  - induction IH as [|v elems Hv _ IHl]; cbn [map foldr]; [lia|].
    specialize (Hv (S cur)). lia.
  - induction IH as [|kv props Hkv _ IHl]; cbn [map foldr]; [lia|].
    specialize (Hkv (S cur)). lia.
Qed.

(** X2: the depth [getObjectDepth] returns from depth 0 is the number of
    nested containers of the value, or one less: an innermost container
    that is empty is not counted.  So a body within the limit of 10 has
    at most 11 containers inside one another. *)
Theorem getObjectDepth_counts_containers (obj : value) (d : nat) :
  getObjectDepth obj 0 = Normal d ->
  (d <= height obj)%nat /\ (height obj <= S d)%nat.
Proof.
  intros H. apply getObjectDepth_normal in H. subst d.
  destruct (nestingDepth_height obj 0). lia.
Qed.

Lemma getObjectDepth_counts_containers_witness :
  (1 <= height (VArray [VArray []]))%nat
  /\ (height (VArray [VArray []]) <= 2)%nat.
Proof.
  apply (getObjectDepth_counts_containers (VArray [VArray []]) 1).
  reflexivity.
Defined.

Lemma nestingDepth_shift (v : value) :
  forall cur k, nestingDepth (cur + k) v = (nestingDepth cur v + k)%nat.
Proof.
  induction v as [| | | | |elems IH|props IH] using value_ind; intros cur k;
    cbn [nestingDepth]; try reflexivity.
  - induction IH as [|v elems Hv _ IHl]; cbn [map foldr]; [reflexivity|].
    rewrite IHl. specialize (Hv (S cur) k). cbn [Nat.add] in Hv. rewrite Hv. lia.
  - induction IH as [|kv props Hkv _ IHl]; cbn [map foldr]; [reflexivity|].
    rewrite IHl. specialize (Hkv (S cur) k). cbn [Nat.add] in Hkv.
    rewrite Hkv. lia.
Qed.

(** X3: the second argument of [getObjectDepth] is an offset: started
    from depth cur + k instead of cur, the call completes the same way
    and every returned depth is k more. *)
Theorem getObjectDepth_offset (obj : value) (cur k : nat) :
  getObjectDepth obj (cur + k)
  = match getObjectDepth obj cur with
    | Normal d => Normal (d + k)%nat
    | Throw e => Throw e
    end.
Proof.
  rewrite !getObjectDepth_closed_form.
  destruct (shadowFree obj); [|reflexivity].
  now rewrite nestingDepth_shift.
Qed.

End DepthFacts.

(** ** The call stack the two helpers need *)

Module StackFacts.

Import Guard Middleware Notions LoopFacts GuardFacts DepthFacts.

Section FuelLoops.

Context {A : Type} (valueOf : A -> value).

Lemma depthLoopFuel_sound (own : completion bool)
  (recurF : value -> option (completion nat)) (recur : value -> completion nat)
  (entries : list A) :
  Forall (fun e => forall r, recurF (valueOf e) = Some r -> r = recur (valueOf e))
         entries ->
  forall m r, depthLoopFuel valueOf own recurF entries m = Some r ->
              r = depthLoop valueOf own recur entries m.
Proof.
  induction 1 as [|e rest He _ IH]; intros m r;
    cbn [depthLoopFuel depthLoop bind].
  - now intros [= <-].
  - destruct own as [[|]|err]; cbn [bind].
    + destruct (recurF (valueOf e)) as [[d|err]|] eqn:Hr; [| |discriminate].
      * rewrite <- (He _ eq_refl). cbn [bind]. apply IH.
      * rewrite <- (He _ eq_refl). cbn [bind]. now intros [= <-].
    + apply IH.
    + now intros [= <-].
Qed.

Lemma depthLoopFuel_starved (recurF : value -> option (completion nat))
  (entries : list A) :
  Forall (fun e => recurF (valueOf e) = None
                   \/ exists d, recurF (valueOf e) = Some (Normal d)) entries ->
  Exists (fun e => recurF (valueOf e) = None) entries ->
  forall m, depthLoopFuel valueOf (Normal true) recurF entries m = None.
Proof.
  induction 1 as [|e rest He _ IH]; intros Hex m; [inversion Hex|].
  cbn [depthLoopFuel]. destruct He as [He|[d He]]; rewrite He; [reflexivity|].
  apply IH. inversion Hex as [? ? Hn|]; subst; [congruence | assumption].
Qed.

End FuelLoops.

Lemma getObjectDepthFuel_sound (fuel : nat) :
  forall obj cur r, getObjectDepthFuel fuel obj cur = Some r ->
                    r = getObjectDepth obj cur.
Proof.
  induction fuel as [|fuel IH]; intros obj cur r; [discriminate|].
  destruct obj; cbn [getObjectDepthFuel getObjectDepth];
    try (now intros [= <-]).
  - apply depthLoopFuel_sound. apply List.Forall_forall. intros v _ r'. apply IH.
  - apply depthLoopFuel_sound. apply List.Forall_forall. intros v _ r'. apply IH.
Qed.

Lemma foldr_max_attained (xs : list nat) (m : nat) :
  (m < foldr Nat.max 0 xs)%nat -> exists x, In x xs /\ (m < x)%nat.
Proof.
  induction xs as [|y xs IH]; cbn [foldr]; [lia|]. intros H.
  destruct (Nat.lt_ge_cases m y) as [Hy|Hy].
  - exists y. split; [now left | exact Hy].
  - destruct IH as (x & Hx & Hm); [lia|]. exists x. split; [now right | exact Hm].
Qed.

Lemma getObjectDepthFuel_unshadowed (fuel : nat) (v : value) (cur : nat) :
  shadowFree v = true ->
  getObjectDepthFuel fuel v cur = None
  \/ exists d, getObjectDepthFuel fuel v cur = Some (Normal d).
Proof.
  intros Hfree. destruct (getObjectDepthFuel fuel v cur) as [r|] eqn:H; [|now left].
  right. apply getObjectDepthFuel_sound in H.
  rewrite (getObjectDepth_shadowFree v Hfree) in H. subst r. eauto.
Qed.

(** X5: [getObjectDepth] nests its calls as deep as the value is nested.
    On a value without a shadowed hasOwnProperty, a call stack with
    fewer frames than the value has nested containers is not enough for
    the call to finish (and one frame more than that number always is). *)
Theorem getObjectDepth_needs_stack (obj : value) :
  shadowFree obj = true ->
  forall fuel cur,
    ((fuel < height obj)%nat -> getObjectDepthFuel fuel obj cur = None)
    /\ ((height obj < fuel)%nat ->
        getObjectDepthFuel fuel obj cur = Some (getObjectDepth obj cur)).
Proof.
  intros Hfree fuel cur. split; [|apply getObjectDepthFuel_enough].
  revert Hfree fuel cur.
  induction obj as [| | | | |elems IH|props IH] using value_ind;
    intros Hfree [|fuel] cur Hfuel; try reflexivity;
    cbn [height] in Hfuel; try lia.
  - cbn [getObjectDepthFuel shadowFree] in *.
    rewrite forallb_forall in Hfree. rewrite List.Forall_forall in IH.
    rewrite callHasOwnProperty_array. apply depthLoopFuel_starved.
    + apply List.Forall_forall. intros v Hv.
      apply getObjectDepthFuel_unshadowed. auto.
    + destruct (foldr_max_attained (map height elems) fuel) as (h & Hh & Hlt);
        [lia|].
      apply in_map_iff in Hh as (v & <- & Hv).
      apply List.Exists_exists. exists v. split; [exact Hv|].
      apply IH; auto.
  - cbn [getObjectDepthFuel shadowFree] in *.
    rewrite callHasOwnProperty_object.
    destruct (getOwn props (lit "hasOwnProperty")); [discriminate|].
    rewrite forallb_forall in Hfree. rewrite List.Forall_forall in IH.
    apply depthLoopFuel_starved.
    + apply List.Forall_forall. intros kv Hkv.
      apply getObjectDepthFuel_unshadowed. auto.
    + destruct (foldr_max_attained
                  (map (fun kv => height (snd kv)) props) fuel)
        as (h & Hh & Hlt); [lia|].
      apply in_map_iff in Hh as (kv & <- & Hkv).
      apply List.Exists_exists. exists kv. split; [exact Hkv|].
      apply (IH kv Hkv); auto.
Qed.

Lemma getObjectDepth_needs_stack_witness :
  getObjectDepthFuel 4 (nested 5 (VString (lit "x"))) 0 = None.
Proof.
  apply (getObjectDepth_needs_stack (nested 5 (VString (lit "x"))));
    vm_compute; [reflexivity | lia].
Defined.

(** X6: once the depth check has passed, [sanitizeObject] stays within
    twelve nested calls whatever the body: the depth limit bounds the
    recursion of the sanitizer. *)
Theorem sanitizeObject_stack_after_depth_check (obj : value) (d : nat) :
  getObjectDepth obj 0 = Normal d -> (d <= MAX_DEPTH)%nat ->
  sanitizeObjectFuel 12 obj = Some (sanitizeObject obj).
Proof.
  intros Hd Hle. apply sanitizeObjectFuel_enough.
  apply getObjectDepth_normal in Hd. subst d.
  destruct (nestingDepth_height obj 0) as [_ Hh].
  unfold MAX_DEPTH in Hle. lia.
Qed.

Lemma sanitizeObject_stack_after_depth_check_witness :
  sanitizeObjectFuel 12 (nested 10 (VString (lit "javascript:x")))
  = Some (sanitizeObject (nested 10 (VString (lit "javascript:x")))).
Proof.
  apply (sanitizeObject_stack_after_depth_check
           (nested 10 (VString (lit "javascript:x"))) 10);
    vm_compute; [reflexivity | lia].
Defined.

End StackFacts.

(** ** How a call of the middleware can end *)

Module OutcomeFacts.

Import JSNumber Guard Middleware Notions Measures GuardFacts MiddlewareFacts
  DepthFacts.

Lemma startsWith_spec (s p : jsstring) :
  startsWith s p = true <-> exists b : jsstring, s = p ++ b.
Proof.
  revert s. induction p as [|a p IH]; intros s; cbn [startsWith].
  - split; [intros _; now exists s | intros _; now destruct s].
  - destruct s as [|c s].
    + split; [discriminate | intros (b & H); discriminate].
    + change (startsWith (c :: s) (a :: p))
        with ((a =? c) && startsWith s p).
      rewrite andb_true_iff, N.eqb_eq, IH. split.
      * intros (-> & b & ->). now exists b.
      * intros (b & [= -> ->]). split; [reflexivity | now exists b].
Qed.

(** [includes] is the test for a contiguous occurrence. *)
Lemma includes_spec (s p : jsstring) :
  includes s p = true <-> exists a b : jsstring, s = a ++ p ++ b.
Proof.
  induction s as [|c s IH]; cbn [includes].
  - rewrite orb_false_r, startsWith_spec. split.
    + intros (b & H). now exists [], b.
    + intros (a & b & H). destruct a; [now exists b | discriminate].
  - rewrite orb_true_iff, startsWith_spec, IH. split.
    + intros [(b & H)|(a & b & ->)]; [now exists [], b|].
      now exists (c :: a), b.
    + intros ([|c' a] & b & H).
      * left. now exists b.
      * right. injection H as -> ->. now exists a, b.
Qed.

(** X13: the content-type check accepts a request exactly when the
    header is missing or empty, or one of the three allowed types occurs
    somewhere in it as it stands (same code units, so same case),
    whatever comes before and after. *)
Theorem typeAccepted_occurrence (req : Request) :
  typeAccepted req
  <-> headers req !! "content-type" = None
      \/ headers req !! "content-type" = Some ([] : jsstring)
      \/ exists t pre post : jsstring,
           In t allowedTypes
           /\ headers req !! "content-type" = Some (pre ++ t ++ post).
Proof.
  unfold typeAccepted, contentTypeOf.
  destruct (headers req !! "content-type") as [[|c h]|];
    cbn [orDefault truthy andb].
  - split; [auto | reflexivity].
  - rewrite negb_false_iff. unfold allowedType.
    rewrite existsb_exists. split.
    + intros (t & Ht & Hin). apply includes_spec in Hin as (pre & post & ->).
      right; right. now exists t, pre, post.
    + intros [H|[H|(t & pre & post & Ht & H)]]; try discriminate.
      exists t. split; [exact Ht|]. apply includes_spec.
      exists pre, post. congruence.
  - split; [auto | reflexivity].
Qed.

End OutcomeFacts.

(** ** Properties of the helpers of the routes *)

Module HelperFacts.

Import RegExp Helpers.

Lemma matchAt_angleBracket (bef : option code_unit) (c : code_unit)
  (s : jsstring) (i : N) :
  matchAt angleBracket (Cursor bef (c :: s) i)
  = if isAngleBracket c then Some 1 else None.
Proof.
  unfold matchAt, angleBracket. cbn [exec remaining index].
  destruct (isAngleBracket c); [|reflexivity].
  f_equal. cbn [index]. lia.
Qed.

Lemma replaceAll_angleBracket (s : jsstring) :
  replaceAll angleBracket s = List.filter (fun c => negb (isAngleBracket c)) s.
Proof.
  unfold replaceAll. generalize (@None code_unit) 0.
  induction s as [|c s IH]; intros bef i; cbn [replaceFrom List.filter].
  - reflexivity.
  - rewrite matchAt_angleBracket.
    destruct (isAngleBracket c); cbn [negb N.to_nat Pos.to_nat Pos.iter_op];
      [apply IH | f_equal; apply IH].
Qed.

(** X14: whatever trimming does, the string [sanitizeInput] returns
    contains neither angle bracket, and for an input that is not a
    string it is the empty string. *)
Theorem sanitizeInput_no_angle_brackets (trimmer : jsstring -> jsstring)
  (input : value) :
  ~ In 60 (sanitizeInputWith trimmer input)
  /\ ~ In 62 (sanitizeInputWith trimmer input)
  /\ (isString input = false -> sanitizeInputWith trimmer input = []).
Proof.
  unfold sanitizeInputWith.
  destruct input; cbn [isString negb]; try (now repeat split; auto).
  rewrite replaceAll_angleBracket.
  repeat split; try discriminate; intros H; apply filter_In in H as [_ H];
    discriminate.
Qed.

Lemma filter_sublist {A : Type} (f : A -> bool) (l : list A) :
  sublist (List.filter f l) l.
Proof.
  induction l as [|a l IH]; cbn [List.filter]; [constructor|].
  destruct (f a); [now apply sublist_skip | now apply sublist_cons].
Qed.

Lemma trimStart_suffix (s : jsstring) :
  exists ws : jsstring, s = ws ++ JSNumber.trimStart s
                        /\ forallb isWhiteSpace ws = true.
Proof.
  induction s as [|c s (ws & IH & Hws)]; cbn [JSNumber.trimStart].
  - now exists [].
  - destruct (isWhiteSpace c) eqn:Hc.
    + exists (c :: ws). cbn [forallb app]. rewrite Hc, Hws.
      split; [congruence | reflexivity].
    + now exists [].
Qed.

Lemma trim_spec (s : jsstring) :
  exists before after : jsstring,
    s = before ++ trim s ++ after
    /\ forallb isWhiteSpace before = true /\ forallb isWhiteSpace after = true.
Proof.
  unfold trim, trimEnd.
  destruct (trimStart_suffix s) as (before & Hs & Hbefore).
  destruct (trimStart_suffix (rev (JSNumber.trimStart s))) as (ws & Hr & Hws).
  exists before, (rev ws). split; [|split; [exact Hbefore|]].
  - rewrite Hs at 1. f_equal.
    rewrite <- (rev_involutive (JSNumber.trimStart s)) at 1.
    rewrite Hr at 1. now rewrite rev_app_distr.
  - rewrite forallb_forall in Hws |- *. intros c Hc. apply Hws.
    now apply in_rev.
Qed.

Lemma trimStart_head (s : jsstring) (c : code_unit) (rest : jsstring) :
  JSNumber.trimStart s = c :: rest -> isWhiteSpace c = false.
Proof.
  induction s as [|d s IH]; cbn [JSNumber.trimStart]; [discriminate|].
  destruct (isWhiteSpace d) eqn:Hd; [exact IH|]. now intros [= <- _].
Qed.

Lemma trim_ends (s : jsstring) (c : code_unit) :
  (forall rest, trim s = c :: rest -> isWhiteSpace c = false)
  /\ (forall init, trim s = init ++ [c] -> isWhiteSpace c = false).
Proof.
  unfold trim, trimEnd. split.
  - intros rest H.
    destruct (trimStart_suffix (rev (JSNumber.trimStart s))) as (ws & Hr & _).
    apply (f_equal (@rev code_unit)) in Hr.
    rewrite rev_involutive, rev_app_distr, H in Hr.
    now apply (trimStart_head s c (rest ++ rev ws)).
  - intros init H. apply (f_equal (@rev code_unit)) in H.
    rewrite rev_involutive, rev_app_distr in H. cbn [rev app] in H.
    exact (trimStart_head _ c (rev init) H).
Qed.

(** X15: [sanitizeInput] of a string, with lodash's trim.  The string
    loses the whitespace at its two ends (all of it: what is left
    neither starts nor ends with whitespace), then every angle bracket
    of what is left, and nothing else: the result is the trimmed string
    with its angle brackets filtered out, in particular a subsequence of
    the input. *)
Theorem sanitizeInput_trims_then_filters (s : jsstring) :
  sanitizeInput (VString s)
  = List.filter (fun c => negb (isAngleBracket c)) (trim s)
  /\ sublist (sanitizeInput (VString s)) s
  /\ (exists before after : jsstring,
        s = before ++ trim s ++ after
        /\ forallb isWhiteSpace before = true
        /\ forallb isWhiteSpace after = true)
  /\ (forall c rest, trim s = c :: rest -> isWhiteSpace c = false)
  /\ (forall c init, trim s = init ++ [c] -> isWhiteSpace c = false).
Proof.
  assert (H : sanitizeInput (VString s)
              = List.filter (fun c => negb (isAngleBracket c)) (trim s)).
  { unfold sanitizeInput, sanitizeInputWith. cbn [isString negb].
    apply replaceAll_angleBracket. }
  split; [exact H|]. split;
    [|split; [apply trim_spec|split; intros c; apply trim_ends]].
  rewrite H. destruct (trim_spec s) as (before & after & Hs & _).
  rewrite Hs at 2.
  etransitivity; [apply filter_sublist|].
  apply sublist_inserts_l, sublist_inserts_r. reflexivity.
Qed.

Example sanitizeInput_examples :
  sanitizeInput (VString (lit "  <b>bold</b>  ")) = lit "bbold/b"
  /\ sanitizeInput (VString (lit "< a")) = lit " a"
  /\ sanitizeInput (VNumber 3%float) = []
  /\ sanitizeInput VNull = [].
Proof. vm_compute. repeat split. Qed.

(** *** [formatUserData] *)

Lemma getOwn_app (l1 l2 : list (jsstring * value)) (key : jsstring) :
  getOwn (l1 ++ l2) key
  = match getOwn l1 key with
    | Some v => Some v
    | None => getOwn l2 key
    end.
Proof.
  induction l1 as [|[k v] l1 IH]; cbn [app getOwn]; [reflexivity|].
  now destruct (bool_decide (k = key)).
Qed.

Lemma getOwn_picked (props : list (jsstring * value)) (k key : jsstring) :
  getOwn (picked props k) key
  = if bool_decide (k = key) then getOwn props key else None.
Proof.
  unfold picked. destruct (getOwn props k) as [v|] eqn:Hk; cbn [getOwn].
  - destruct (bool_decide_reflect (k = key)) as [<-|]; [now rewrite Hk | reflexivity].
  - destruct (bool_decide_reflect (k = key)) as [<-|]; [now rewrite Hk | reflexivity].
Qed.

Lemma getOwn_pick (props : list (jsstring * value)) (keys : list jsstring)
  (key : jsstring) :
  (In key keys -> getOwn (flat_map (picked props) keys) key = getOwn props key)
  /\ (~ In key keys -> getOwn (flat_map (picked props) keys) key = None).
Proof.
  induction keys as [|k keys [IHin IHout]]; cbn [flat_map In].
  - split; [tauto | reflexivity].
  - rewrite getOwn_app, getOwn_picked.
    destruct (bool_decide_reflect (k = key)) as [->|Hne].
    + split; [intros _ | tauto].
      destruct (getOwn props key) as [v|] eqn:Hv; [reflexivity|].
      destruct (decide (key ∈ keys)) as [Hin|Hout].
      * apply list_elem_of_In in Hin. now rewrite (IHin Hin).
      * apply IHout. now rewrite <- list_elem_of_In.
    + split; [intros [?|Hin]; [congruence | now apply IHin]|].
      intros Hout. apply IHout. tauto.
Qed.

Lemma flat_map_ext_in {A B : Type} (f g : A -> list B) (l : list A) :
  (forall a, In a l -> f a = g a) -> flat_map f l = flat_map g l.
Proof.
  induction l as [|a l IH]; cbn [flat_map]; [reflexivity|].
  intros H. rewrite (H a (or_introl eq_refl)), IH; [reflexivity|].
  intros b Hb. apply H. now right.
Qed.

(** X16: what [formatUserData] exposes.  The formatted record has a
    property for each of id, username, email, createdAt and updatedAt
    that the user record has, with the user's value, and no other
    property: every other field of the user record is left out. *)
Theorem formatUserData_exposes_public_fields (props : list (jsstring * value))
  (key : jsstring) :
  (In key publicFields ->
   getOwn (propsOf (formatUserData (VObject props))) key = getOwn props key)
  /\ (~ In key publicFields ->
      getOwn (propsOf (formatUserData (VObject props))) key = None)
  /\ incl (map fst (propsOf (formatUserData (VObject props)))) publicFields.
Proof.
  split; [apply (getOwn_pick props publicFields key)|].
  split; [apply (getOwn_pick props publicFields key)|].
  unfold formatUserData, pick. cbn [propsOf].
  intros k Hk. apply in_map_iff in Hk as ([k' v] & <- & Hin).
  apply in_flat_map in Hin as (k0 & Hk0 & Hin).
  unfold picked in Hin.
  destruct (getOwn props k0); [|contradiction].
  destruct Hin as [[= <- _]|[]]. exact Hk0.
Qed.

(** X17: formatting is idempotent: a formatted record formats to
    itself, whatever value is formatted. *)
Theorem formatUserData_idempotent (user : value) :
  formatUserData (formatUserData user) = formatUserData user.
Proof.
  unfold formatUserData.
  destruct user as [| | | | | |props]; try reflexivity.
  cbn [pick]. f_equal.
  apply (flat_map_ext_in (picked (flat_map (picked props) publicFields))
           (picked props)).
  intros k Hk. unfold picked at 1 3.
  now rewrite (proj1 (getOwn_pick props publicFields k) Hk).
Qed.

Example formatUserData_example :
  formatUserData
    (VObject [(lit "password", VString (lit "secret"));
              (lit "email", VString (lit "a@example.com"));
              (lit "id", VNumber 7%float);
              (lit "profile", VObject [])])
  = VObject [(lit "id", VNumber 7%float);
             (lit "email", VString (lit "a@example.com"))].
Proof. vm_compute. reflexivity. Qed.

End HelperFacts.

(** ** The size check on a header of decimal digits *)

Module SizeFacts.

Import JSNumber Middleware Notions Measures MiddlewareFacts.

Lemma digit_not_whiteSpace (c : code_unit) :
  between 48 57 c = true -> isWhiteSpace c = false.
Proof.
  unfold between, isWhiteSpace, between. intros H.
  apply andb_true_iff in H as [H1 H2].
  apply N.leb_le in H1. apply N.leb_le in H2.
  repeat match goal with
         | |- context [?a <=? ?b] => destruct (N.leb_spec a b); try lia
         | |- context [?a =? ?b] => destruct (N.eqb_spec a b); try lia
         end;
    try reflexivity.
Qed.

Lemma radixDigit_decimal (c : code_unit) :
  between 48 57 c = true -> radixDigit 10 c = Some (c - 48).
Proof.
  intros H. unfold radixDigit, digitValue. rewrite H.
  unfold between in H. apply andb_true_iff in H as [H1 H2].
  apply N.leb_le in H1. apply N.leb_le in H2.
  destruct (N.ltb_spec (c - 48) 10); [reflexivity | lia].
Qed.

Lemma parseDigits_decimal (s : jsstring) :
  allDigits s = true ->
  forall acc seen, (seen = true \/ s <> []) ->
  parseDigits 10 acc seen s
  = Some (fold_left (fun acc c => acc * 10 + (c - 48)) s acc).
Proof.
  unfold allDigits. induction s as [|c s IH]; cbn [forallb parseDigits fold_left].
  - intros _ acc seen [->|H]; [reflexivity | contradiction].
  - intros H acc seen _. apply andb_true_iff in H as [Hc Hs].
    rewrite (radixDigit_decimal c Hc). apply IH; [exact Hs | now left].
Qed.

Lemma parseInt_decimal_digits (s : jsstring) :
  s <> [] -> allDigits s = true -> parseInt s = Int (Z.of_N (decimalValue s)).
Proof.
  intros Hne Hdigits. destruct s as [|c s]; [contradiction|].
  pose proof Hdigits as Hall. unfold allDigits in Hdigits.
  cbn [forallb] in Hdigits. apply andb_true_iff in Hdigits as [Hc Hs].
  unfold parseInt. cbn [trimStart]. rewrite (digit_not_whiteSpace c Hc).
  assert (Hsign : stripSign (c :: s) = (1%Z, c :: s)).
  { unfold stripSign. unfold between in Hc.
    apply andb_true_iff in Hc as [H1 H2].
    apply N.leb_le in H1. apply N.leb_le in H2.
    destruct (N.eqb_spec c 45); [lia|]. destruct (N.eqb_spec c 43); [lia|].
    reflexivity. }
  rewrite Hsign.
  assert (Hprefix : stripPrefix (c :: s) = (10, c :: s)).
  { unfold stripPrefix. destruct s as [|x s]; [reflexivity|].
    cbn [forallb] in Hs. apply andb_true_iff in Hs as [Hx _].
    unfold between in Hx. apply andb_true_iff in Hx as [H1 H2].
    apply N.leb_le in H1. apply N.leb_le in H2.
    destruct (N.eqb_spec x 120); [lia|]. destruct (N.eqb_spec x 88); [lia|].
    now rewrite andb_false_r. }
  rewrite Hprefix.
  rewrite (parseDigits_decimal (c :: s) Hall 0 false) by (right; discriminate).
  unfold decimalValue. f_equal. lia.
Qed.

(** X18: on a content-length header made of decimal digits only, the
    request is rejected with 413 exactly when the number the digits
    write is greater than 1048576.  Up to 2^53 that number is the
    declared size itself. *)
Theorem size_check_on_decimal_header (req : Request) (res : Response)
  (h : jsstring) :
  headers req !! "content-length" = Some h -> h <> [] -> allDigits h = true ->
  (rejected (securityMiddleware req res) 413 payloadTooLarge
   <-> 1048576 < decimalValue h)
  /\ gt (contentLengthOf req) MAX_SIZE = (1048576 <? decimalValue h)
  /\ (decimalValue h <= 9007199254740992 ->
      contentLengthOf req = Int (Z.of_N (decimalValue h))).
Proof.
  intros Hh Hne Hdigits.
  assert (Hlen : contentLengthOf req = Int (Z.of_N (decimalValue h))).
  { unfold contentLengthOf. rewrite Hh. unfold orDefault.
    destruct h; [contradiction|]. cbn [truthy].
    now apply parseInt_decimal_digits. }
  assert (Hgt : gt (contentLengthOf req) MAX_SIZE = (1048576 <? decimalValue h)).
  { rewrite Hlen. cbn [gt]. unfold MAX_SIZE.
    destruct (N.ltb_spec 1048576 (decimalValue h));
      [apply Z.ltb_lt | apply Z.ltb_ge]; lia. }
  split; [|split; [exact Hgt | intros _; exact Hlen]].
  split.
  - intros Hrej. outcome_cases req res E; rewrite E in Hrej;
      try not_this_rejection Hrej.
    rewrite Hgt in Hs. now apply N.ltb_lt.
  - intros Hlt. rewrite too_large_rejected; [apply rejected_reject|].
    rewrite Hgt. now apply N.ltb_lt.
Qed.

Lemma size_check_on_decimal_header_witness :
  rejected (securityMiddleware
              (mkRequest [("content-length", lit "0001048577")] VUndefined)
              freshResponse) 413 payloadTooLarge
  <-> 1048576 < decimalValue (lit "0001048577").
Proof.
  apply (size_check_on_decimal_header
           (mkRequest [("content-length", lit "0001048577")] VUndefined)
           freshResponse (lit "0001048577"));
    vm_compute; [reflexivity | discriminate | reflexivity].
Defined.

End SizeFacts.

(** ** The helpers and the middleware on a bounded call stack *)

Module CallStackFacts.

Import JSNumber Guard Middleware Notions Measures CallStack LoopFacts GuardFacts
  MiddlewareFacts DepthFacts StackFacts.

Section StackLoops.

Context {A : Type} (valueOf : A -> value) (assign : A -> value -> A).

Lemma depthLoop_ext (own : completion bool) (r1 r2 : value -> completion nat)
  (entries : list A) :
  Forall (fun e => r1 (valueOf e) = r2 (valueOf e)) entries ->
  forall m, depthLoop valueOf own r1 entries m = depthLoop valueOf own r2 entries m.
Proof.
  induction 1 as [|e rest He _ IH]; intros m; cbn [depthLoop]; [reflexivity|].
  destruct own as [[|]|err]; cbn [bind]; [|apply IH|reflexivity].
  rewrite He. destruct (r2 (valueOf e)); cbn [bind]; [apply IH | reflexivity].
Qed.

Lemma sanitizeLoop_ext (own : completion bool)
  (r1 r2 : value -> value * completion unit) (entries : list A) :
  Forall (fun e => r1 (valueOf e) = r2 (valueOf e)) entries ->
  sanitizeLoop valueOf assign own r1 entries
  = sanitizeLoop valueOf assign own r2 entries.
Proof.
  induction 1 as [|e rest He _ IH]; cbn [sanitizeLoop]; [reflexivity|].
  now rewrite He, IH.
Qed.

Lemma depthLoop_throw_from (own : completion bool)
  (recur : value -> completion nat) (entries : list A) :
  forall m err, depthLoop valueOf own recur entries m = Throw err ->
  own = Throw err \/ Exists (fun e => recur (valueOf e) = Throw err) entries.
Proof.
  induction entries as [|e rest IH]; intros m err; cbn [depthLoop];
    [discriminate|].
  destruct own as [[|]|err0]; cbn [bind].
  - destruct (recur (valueOf e)) as [d|err1] eqn:He; cbn [bind].
    + intros H. destruct (IH _ _ H) as [?|Hex]; [discriminate|].
      right. now apply Exists_cons_tl.
    + intros [= <-]. right. now apply Exists_cons_hd.
  - intros H. destruct (IH _ _ H) as [?|Hex]; [discriminate|].
    right. now apply Exists_cons_tl.
  - intros [= <-]. now left.
Qed.

Lemma sanitizeLoop_throw_from (own : completion bool)
  (recur : value -> value * completion unit) (entries : list A) (err : error) :
  snd (sanitizeLoop valueOf assign own recur entries) = Throw err ->
  own = Throw err
  \/ Exists (fun e => snd (recur (valueOf e)) = Throw err) entries.
Proof.
  induction entries as [|e rest IH]; cbn [sanitizeLoop]; [discriminate|].
  destruct own as [[|]|err0].
  - destruct (recur (valueOf e)) as [v' [u|err1]] eqn:He.
    + destruct (sanitizeLoop valueOf assign (Normal true) recur rest) as [rest' c].
      cbn [snd] in *. intros H. destruct (IH H) as [?|Hex]; [discriminate|].
      right. now apply Exists_cons_tl.
    + cbn [snd]. intros [= <-]. right. apply Exists_cons_hd. now rewrite He.
  - destruct (sanitizeLoop valueOf assign (Normal false) recur rest) as [rest' c].
    cbn [snd] in *. intros H. destruct (IH H) as [?|Hex]; [discriminate|].
    right. now apply Exists_cons_tl.
  - cbn [snd]. intros [= <-]. now left.
Qed.

(** A loop whose calls throw when their frames run out is the loop of
    the frame-counting transcription, with RangeError for "no result". *)
Lemma depthLoop_on_fuel (own : completion bool)
  (recurF : value -> option (completion nat)) (entries : list A) :
  forall m,
    depthLoop valueOf own
      (fun v => match recurF v with Some c => c | None => Throw stackOverflow end)
      entries m
    = match depthLoopFuel valueOf own recurF entries m with
      | Some c => c
      | None => Throw stackOverflow
      end.
Proof.
  induction entries as [|e rest IH]; intros m;
    cbn [depthLoop depthLoopFuel]; [reflexivity|].
  destruct own as [[|]|err]; cbn [bind]; [|apply IH|reflexivity].
  destruct (recurF (valueOf e)) as [[d|err]|]; cbn [bind];
    [apply IH | reflexivity | reflexivity].
Qed.

End StackLoops.

(** On a stack of [stack] frames, [getObjectDepth] is its frame-counting
    transcription with RangeError thrown where that one gives up. *)
Lemma getObjectDepthOn_fuel (stack : nat) :
  forall obj cur,
    getObjectDepthOn stack obj cur
    = match getObjectDepthFuel stack obj cur with
      | Some c => c
      | None => Throw stackOverflow
      end.
Proof.
  induction stack as [|stack IH]; intros obj cur; [reflexivity|].
  destruct obj; cbn [getObjectDepthOn getObjectDepthFuel]; try reflexivity.
  - rewrite <- depthLoop_on_fuel. apply depthLoop_ext.
    apply List.Forall_forall. intros v _. apply IH.
  - rewrite <- depthLoop_on_fuel. apply depthLoop_ext.
    apply List.Forall_forall. intros v _. apply IH.
Qed.

Lemma depthFrames_height (v : value) :
  (height v <= depthFrames v)%nat /\ (depthFrames v <= S (height v))%nat.
Proof.
  induction v as [| | | | |elems IH|props IH] using value_ind;
    cbn [height depthFrames]; try lia.
  - induction IH as [|v elems Hv _ IHl]; cbn [map foldr]; lia.
  - induction IH as [|kv props Hkv _ IHl]; cbn [map foldr]; lia.
Qed.

Lemma getObjectDepthFuel_frames_enough (obj : value) :
  forall fuel cur, (depthFrames obj <= fuel)%nat ->
  getObjectDepthFuel fuel obj cur = Some (getObjectDepth obj cur).
Proof.
  induction obj as [| | | | |elems IH|props IH] using value_ind;
    intros [|fuel] cur Hfuel; cbn [depthFrames] in Hfuel; try lia;
    try reflexivity.
  - cbn [getObjectDepthFuel getObjectDepth]. apply depthLoopFuel_agrees.
    rewrite List.Forall_forall in IH |- *. intros v Hv. apply IH; [exact Hv|].
    pose proof (foldr_max_ge (map depthFrames elems) 0 (depthFrames v)
                  (in_map depthFrames _ _ Hv)).
    unfold elemValue. lia.
  - cbn [getObjectDepthFuel getObjectDepth]. apply depthLoopFuel_agrees.
    rewrite List.Forall_forall in IH |- *. intros kv Hkv. apply (IH _ Hkv).
    pose proof (foldr_max_ge (map (fun kv => depthFrames (snd kv)) props) 0
                  (depthFrames (snd kv))
                  (in_map (fun kv => depthFrames (snd kv)) _ _ Hkv)).
    unfold propValue. lia.
Qed.

Lemma getObjectDepthFuel_frames_starved (obj : value) :
  shadowFree obj = true ->
  forall fuel cur, (fuel < depthFrames obj)%nat ->
  getObjectDepthFuel fuel obj cur = None.
Proof.
  induction obj as [| | | | |elems IH|props IH] using value_ind;
    intros Hfree [|fuel] cur Hfuel; try reflexivity;
    cbn [depthFrames] in Hfuel; try lia.
  - cbn [getObjectDepthFuel shadowFree] in *.
    rewrite forallb_forall in Hfree. rewrite List.Forall_forall in IH.
    rewrite callHasOwnProperty_array. apply depthLoopFuel_starved.
    + apply List.Forall_forall. intros v Hv.
      apply getObjectDepthFuel_unshadowed. auto.
    + destruct (foldr_max_attained (map depthFrames elems) fuel)
        as (h & Hh & Hlt); [lia|].
      apply in_map_iff in Hh as (v & <- & Hv).
      apply List.Exists_exists. exists v. split; [exact Hv|].
      apply IH; auto.
  - cbn [getObjectDepthFuel shadowFree] in *.
    rewrite callHasOwnProperty_object.
    destruct (getOwn props (lit "hasOwnProperty")); [discriminate|].
    rewrite forallb_forall in Hfree. rewrite List.Forall_forall in IH.
    apply depthLoopFuel_starved.
    + apply List.Forall_forall. intros kv Hkv.
      apply getObjectDepthFuel_unshadowed. auto.
    + destruct (foldr_max_attained
                  (map (fun kv => depthFrames (snd kv)) props) fuel)
        as (h & Hh & Hlt); [lia|].
      apply in_map_iff in Hh as (kv & <- & Hkv).
      apply List.Exists_exists. exists kv. split; [exact Hkv|].
      apply (IH kv Hkv); auto.
Qed.

Lemma getObjectDepthOn_enough (stack : nat) (obj : value) (cur : nat) :
  (depthFrames obj <= stack)%nat ->
  getObjectDepthOn stack obj cur = getObjectDepth obj cur.
Proof.
  intros H. now rewrite getObjectDepthOn_fuel, getObjectDepthFuel_frames_enough.
Qed.

Lemma getObjectDepthOn_normal (stack : nat) (obj : value) (cur d : nat) :
  getObjectDepthOn stack obj cur = Normal d
  <-> shadowFree obj = true /\ (depthFrames obj <= stack)%nat
      /\ d = nestingDepth cur obj.
Proof.
  split.
  - intros H. rewrite getObjectDepthOn_fuel in H.
    destruct (getObjectDepthFuel stack obj cur) as [r|] eqn:Hf; [|discriminate].
    subst r. pose proof (getObjectDepthFuel_sound _ _ _ _ Hf) as Hs.
    symmetry in Hs.
    pose proof (getObjectDepth_normal_shadowFree _ _ _ Hs) as Hfree.
    split; [exact Hfree|]. split; [|now apply getObjectDepth_normal].
    destruct (Nat.le_gt_cases (depthFrames obj) stack) as [Hle|Hgt];
      [exact Hle|].
    rewrite (getObjectDepthFuel_frames_starved obj Hfree stack cur Hgt) in Hf.
    discriminate.
  - intros (Hfree & Hle & ->).
    rewrite (getObjectDepthOn_enough _ _ _ Hle).
    now apply getObjectDepth_shadowFree.
Qed.

Lemma getObjectDepthOn_throw (stack : nat) (obj : value) (cur : nat) (err : error) :
  getObjectDepthOn stack obj cur = Throw err ->
  (err = shadowError /\ shadowFree obj = false)
  \/ (err = stackOverflow /\ (stack < depthFrames obj)%nat).
Proof.
  intros H. rewrite getObjectDepthOn_fuel in H.
  destruct (getObjectDepthFuel stack obj cur) as [r|] eqn:Hf.
  - subst r. left. apply getObjectDepthFuel_sound in Hf.
    rewrite getObjectDepth_closed_form in Hf.
    destruct (shadowFree obj); [discriminate|]. injection Hf as ->.
    now split.
  - injection H as <-. right. split; [reflexivity|].
    destruct (Nat.le_gt_cases (depthFrames obj) stack) as [Hle|Hgt];
      [|exact Hgt].
    rewrite (getObjectDepthFuel_frames_enough obj stack cur Hle) in Hf.
    discriminate.
Qed.

(** X1: [getObjectDepth] on a call stack of a given number of frames.
    The call returns exactly when no mapping anywhere in the value has
    an own property named hasOwnProperty and the stack has a frame for
    every nested call (one per level of nesting, scalars included); it
    then returns the current depth for a scalar or an empty container
    and the greatest depth of the children otherwise.  When it throws,
    it is the TypeError of calling what is not a function, on a value
    with such a property, or the RangeError of a stack too small. *)
Theorem getObjectDepthOn_closed_form (stack : nat) (obj : value) (cur : nat) :
  (forall d, getObjectDepthOn stack obj cur = Normal d
             <-> shadowFree obj = true /\ (depthFrames obj <= stack)%nat
                 /\ d = nestingDepth cur obj)
  /\ (forall err, getObjectDepthOn stack obj cur = Throw err ->
        (err = TypeError "obj.hasOwnProperty is not a function"
         /\ shadowFree obj = false)
        \/ (err = RangeError "Maximum call stack size exceeded"
            /\ (stack < depthFrames obj)%nat))
  /\ (shadowFree obj = true -> (stack < depthFrames obj)%nat ->
      getObjectDepthOn stack obj cur
      = Throw (RangeError "Maximum call stack size exceeded"))
  /\ (height obj <= depthFrames obj)%nat
  /\ (depthFrames obj <= S (height obj))%nat.
Proof.
  split; [intros d; apply getObjectDepthOn_normal|].
  split; [intros err; apply getObjectDepthOn_throw|].
  split; [|apply depthFrames_height].
  intros Hfree Hlt.
  now rewrite getObjectDepthOn_fuel, getObjectDepthFuel_frames_starved.
Qed.

Example getObjectDepthOn_deep_value :
  getObjectDepthOn 100 (nested 100 VNull) 0
  = Throw (RangeError "Maximum call stack size exceeded")
  /\ getObjectDepthOn 101 (nested 100 VNull) 0 = Normal 100%nat.
Proof. vm_compute. split; reflexivity. Qed.

(** *** [sanitizeObject] on a bounded call stack *)

Lemma visit_ext (r1 r2 : value -> value * completion unit) (v : value) :
  (isObject v = true -> r1 v = r2 v) -> visit r1 v = visit r2 v.
Proof. destruct v; cbn [visit isObject]; auto. Qed.

Lemma visit_normal_ext (r1 r2 : value -> value * completion unit) (v : value) :
  (snd (r1 v) = Normal tt -> r1 v = r2 v) ->
  snd (visit r1 v) = Normal tt -> visit r1 v = visit r2 v.
Proof. destruct v; cbn [visit]; auto. Qed.

Lemma visit_throw (r : value -> value * completion unit) (v : value) (err : error) :
  snd (visit r v) = Throw err -> isObject v = true /\ snd (r v) = Throw err.
Proof. destruct v; cbn [visit isObject snd]; try discriminate; auto. Qed.

Lemma visit_keeps_shape (r : value -> value * completion unit) (v : value) :
  sameShape v (fst (r v)) -> sameShape v (fst (visit r v)).
Proof. destruct v; cbn [visit fst]; auto; constructor. Qed.

Lemma isObject_height (v : value) : isObject v = true -> (1 <= height v)%nat.
Proof. destruct v; cbn [isObject height]; try discriminate; lia. Qed.

Lemma sanitizeObjectOn_enough (obj : value) :
  forall stack, (Nat.max 1 (height obj) <= stack)%nat ->
  sanitizeObjectOn stack obj = sanitizeObject obj.
Proof.
  induction obj as [| | | | |elems IH|props IH] using value_ind;
    intros [|stack] Hstack; try lia; try reflexivity.
  - cbn [sanitizeObjectOn sanitizeObject height] in *.
    rewrite (sanitizeLoop_ext elemValue elemAssign _
               (visit (sanitizeObjectOn stack)) (visit sanitizeObject));
      [reflexivity|].
    rewrite List.Forall_forall in IH |- *. intros v Hv. apply visit_ext.
    intros Hobj. apply (IH v Hv). apply isObject_height in Hobj.
    pose proof (foldr_max_ge (map height elems) 0 (height v)
                  (in_map height _ _ Hv)).
    unfold elemValue in *. lia.
  - cbn [sanitizeObjectOn sanitizeObject height] in *.
    rewrite (sanitizeLoop_ext propValue propAssign _
               (visit (sanitizeObjectOn stack)) (visit sanitizeObject));
      [reflexivity|].
    rewrite List.Forall_forall in IH |- *. intros kv Hkv. apply visit_ext.
    intros Hobj. apply (IH kv Hkv). apply isObject_height in Hobj.
    pose proof (foldr_max_ge (map (fun kv => height (snd kv)) props) 0
                  (height (snd kv))
                  (in_map (fun kv => height (snd kv)) _ _ Hkv)).
    unfold propValue in *. lia.
Qed.

Lemma sanitizeObjectOn_enough_visit (stack : nat) (v : value) :
  (Nat.max 1 (height v) <= stack)%nat ->
  visit (sanitizeObjectOn stack) v = visit sanitizeObject v.
Proof. intros H. apply visit_ext. intros _. now apply sanitizeObjectOn_enough. Qed.

Lemma sanitizeObjectOn_normal (stack : nat) :
  forall obj, snd (sanitizeObjectOn stack obj) = Normal tt ->
              sanitizeObjectOn stack obj = sanitizeObject obj.
Proof.
  induction stack as [|stack IH]; intros obj H; [discriminate|].
  destruct obj; try reflexivity.
  - cbn [sanitizeObjectOn sanitizeObject] in *.
    rewrite callHasOwnProperty_array in H |- *.
    pose proof (sanitizeLoop_normal_children elemValue elemAssign
                  (visit (sanitizeObjectOn stack)) elems) as Hc.
    rewrite (sanitizeLoop_ext elemValue elemAssign _
               (visit (sanitizeObjectOn stack)) (visit sanitizeObject));
      [reflexivity|].
    destruct (sanitizeLoop elemValue elemAssign _ _ elems) as [elems' c].
    specialize (Hc H). eapply Forall_impl; [exact Hc|].
    intros v Hv. apply visit_normal_ext; [apply IH | exact Hv].
  - cbn [sanitizeObjectOn sanitizeObject] in *.
    rewrite callHasOwnProperty_object in H |- *.
    destruct (getOwn props (lit "hasOwnProperty")) eqn:Hown.
    + destruct props; [discriminate Hown | discriminate H].
    + pose proof (sanitizeLoop_normal_children propValue propAssign
                    (visit (sanitizeObjectOn stack)) props) as Hc.
      rewrite (sanitizeLoop_ext propValue propAssign _
                 (visit (sanitizeObjectOn stack)) (visit sanitizeObject));
        [reflexivity|].
      destruct (sanitizeLoop propValue propAssign _ _ props) as [props' c].
      specialize (Hc H). eapply Forall_impl; [exact Hc|].
      intros kv Hkv. apply visit_normal_ext; [apply IH | exact Hkv].
Qed.

Lemma sanitizeObjectOn_throw (stack : nat) :
  forall obj err, snd (sanitizeObjectOn stack obj) = Throw err ->
  (err = shadowError /\ shadowFree obj = false) \/ err = stackOverflow.
Proof.
  induction stack as [|stack IH]; intros obj err H.
  { right. now injection H as <-. }
  destruct obj; try discriminate H.
  - cbn [sanitizeObjectOn] in H.
    pose proof (sanitizeLoop_throw_from elemValue elemAssign
                  (callHasOwnProperty (VArray elems))
                  (visit (sanitizeObjectOn stack)) elems err) as Hc.
    destruct (sanitizeLoop elemValue elemAssign _ _ elems) as [elems' c].
    destruct (Hc H) as [Hown|Hex]; [discriminate Hown|].
    apply List.Exists_exists in Hex as (v & Hv & Hthrow).
    apply visit_throw in Hthrow as [_ Hthrow].
    destruct (IH _ _ Hthrow) as [[-> Hshadow] | ->]; [left|now right].
    split; [reflexivity|]. cbn [shadowFree].
    destruct (forallb shadowFree elems) eqn:Hall; [|reflexivity].
    rewrite forallb_forall in Hall. unfold elemValue in Hshadow.
    rewrite (Hall v Hv) in Hshadow. discriminate.
  - cbn [sanitizeObjectOn] in H.
    pose proof (sanitizeLoop_throw_from propValue propAssign
                  (callHasOwnProperty (VObject props))
                  (visit (sanitizeObjectOn stack)) props err) as Hc.
    destruct (sanitizeLoop propValue propAssign _ _ props) as [props' c].
    destruct (Hc H) as [Hown|Hex].
    + rewrite callHasOwnProperty_object in Hown. cbn [shadowFree].
      destruct (getOwn props (lit "hasOwnProperty")); [|discriminate].
      injection Hown as <-. now left.
    + apply List.Exists_exists in Hex as (kv & Hkv & Hthrow).
      apply visit_throw in Hthrow as [_ Hthrow].
      destruct (IH _ _ Hthrow) as [[-> Hshadow] | ->]; [left|now right].
      split; [reflexivity|]. cbn [shadowFree].
      destruct (getOwn props (lit "hasOwnProperty")); [reflexivity|].
      destruct (forallb (fun kv => shadowFree (snd kv)) props) eqn:Hall;
        [|reflexivity].
      rewrite forallb_forall in Hall. unfold propValue in Hshadow.
      rewrite (Hall kv Hkv) in Hshadow. discriminate.
Qed.

Lemma sanitizeObjectOn_starved (obj : value) :
  shadowFree obj = true ->
  forall stack, (stack < Nat.max 1 (height obj))%nat ->
  snd (sanitizeObjectOn stack obj) = Throw stackOverflow.
Proof.
  induction obj as [| | | | |elems IH|props IH] using value_ind;
    intros Hfree [|stack] Hstack; try reflexivity;
    cbn [height] in Hstack; try lia.
  - cbn [sanitizeObjectOn shadowFree] in *. rewrite callHasOwnProperty_array.
    pose proof (sanitizeLoop_first_throw elemValue elemAssign
                  (fun v => negb (isObject v) || (height v <=? stack)%nat)
                  stackOverflow (visit (sanitizeObjectOn stack)) elems) as H.
    destruct (sanitizeLoop elemValue elemAssign _ _ elems) as [elems' c].
    rewrite forallb_forall in Hfree. rewrite List.Forall_forall in IH.
    apply H.
    + apply List.Forall_forall. intros v Hv. unfold elemValue.
      destruct (isObject v) eqn:Hobj;
        [|destruct v; try discriminate Hobj; reflexivity].
      cbn [negb orb]. pose proof (isObject_height v Hobj).
      destruct (Nat.leb_spec (height v) stack).
      * rewrite sanitizeObjectOn_enough_visit by lia.
        rewrite (visit_shadowFree v (sanitizeObject_shadowFree v)); auto.
      * destruct v; try discriminate Hobj; cbn [visit];
          apply IH; auto; lia.
    + destruct (foldr_max_attained (map height elems) stack)
        as (h & Hh & Hlt); [lia|].
      apply in_map_iff in Hh as (v & <- & Hv).
      destruct (forallb _ elems) eqn:Hall; [|reflexivity].
      rewrite forallb_forall in Hall. specialize (Hall v Hv).
      destruct (Nat.leb_spec (height v) stack); [lia|].
      destruct v; cbn [height] in Hlt; try lia; discriminate Hall.
  - cbn [sanitizeObjectOn shadowFree] in *.
    rewrite callHasOwnProperty_object.
    destruct (getOwn props (lit "hasOwnProperty")); [discriminate|].
    pose proof (sanitizeLoop_first_throw propValue propAssign
                  (fun kv => negb (isObject (snd kv))
                             || (height (snd kv) <=? stack)%nat)
                  stackOverflow (visit (sanitizeObjectOn stack)) props) as H.
    destruct (sanitizeLoop propValue propAssign _ _ props) as [props' c].
    rewrite forallb_forall in Hfree. rewrite List.Forall_forall in IH.
    apply H.
    + apply List.Forall_forall. intros [k v] Hkv. unfold propValue.
      cbn [snd]. pose proof (Hfree _ Hkv) as Hv. cbn [snd] in Hv.
      destruct (isObject v) eqn:Hobj;
        [|destruct v; try discriminate Hobj; reflexivity].
      cbn [negb orb]. pose proof (isObject_height v Hobj).
      destruct (Nat.leb_spec (height v) stack).
      * rewrite sanitizeObjectOn_enough_visit by lia.
        rewrite (visit_shadowFree v (sanitizeObject_shadowFree v)); auto.
      * destruct v; try discriminate Hobj; cbn [visit];
          apply (IH _ Hkv); auto; cbn [snd]; lia.
    + destruct (foldr_max_attained (map (fun kv => height (snd kv)) props) stack)
        as (h & Hh & Hlt); [lia|].
      apply in_map_iff in Hh as ([k v] & <- & Hkv). cbn [snd] in Hlt.
      destruct (forallb _ props) eqn:Hall; [|reflexivity].
      rewrite forallb_forall in Hall. specialize (Hall _ Hkv).
      cbn [snd] in Hall.
      destruct (Nat.leb_spec (height v) stack); [lia|].
      destruct v; cbn [height] in Hlt; try lia; discriminate Hall.
Qed.

Lemma sanitizeObjectOn_sameShape (stack : nat) :
  forall obj, sameShape obj (fst (sanitizeObjectOn stack obj)).
Proof.
  induction stack as [|stack IH]; intros obj; [apply sameShape_refl|].
  destruct obj; try (cbn; constructor).
  - cbn [sanitizeObjectOn].
    pose proof (sanitizeLoop_related elemValue elemAssign sameShape
                  (callHasOwnProperty (VArray elems))
                  (visit (sanitizeObjectOn stack)) elems sameShape_refl) as H.
    destruct (sanitizeLoop elemValue elemAssign _ _ elems) as [elems' c].
    cbn [fst] in *. constructor. apply H.
    apply List.Forall_forall. intros v _. apply visit_keeps_shape, IH.
  - cbn [sanitizeObjectOn].
    pose proof (sanitizeLoop_related propValue propAssign
                  (fun kv kv' => fst kv = fst kv' /\ sameShape (snd kv) (snd kv'))
                  (callHasOwnProperty (VObject props))
                  (visit (sanitizeObjectOn stack)) props) as H.
    destruct (sanitizeLoop propValue propAssign _ _ props) as [props' c].
    cbn [fst] in *. constructor. apply H.
    + intros kv. split; [reflexivity | apply sameShape_refl].
    + apply List.Forall_forall. intros kv _.
      split; [reflexivity|]. apply visit_keeps_shape, IH.
Qed.

Lemma sanitizeObjectOn_returns (stack : nat) (obj : value) :
  snd (sanitizeObjectOn stack obj) = Normal tt
  <-> shadowFree obj = true /\ (Nat.max 1 (height obj) <= stack)%nat.
Proof.
  split.
  - intros H. pose proof (sanitizeObjectOn_normal _ _ H) as Heq.
    rewrite Heq in H. apply sanitizeObject_normal_shadowFree in H.
    split; [exact H|].
    destruct (Nat.le_gt_cases (Nat.max 1 (height obj)) stack) as [Hle|Hgt];
      [exact Hle|].
    pose proof (sanitizeObjectOn_starved obj H stack Hgt) as Hs.
    rewrite Heq, (sanitizeObject_shadowFree obj H) in Hs. discriminate.
  - intros [Hfree Hle].
    now rewrite (sanitizeObjectOn_enough obj stack Hle),
      (sanitizeObject_shadowFree obj Hfree).
Qed.

(** X4: [sanitizeObject] on a call stack of a given number of frames.
    The call returns exactly when no mapping anywhere in the value has
    an own property named hasOwnProperty and the stack has a frame for
    the call and for every container nested in the value; the value is
    then the one with every string sanitized (a value that is not an
    object is left as it is).  When it throws, it is the TypeError of
    calling what is not a function, on a value with such a property, or
    the RangeError of a stack too small.  However the call ends, the
    value keeps its shape. *)
Theorem sanitizeObjectOn_outcomes (stack : nat) (obj : value) :
  (snd (sanitizeObjectOn stack obj) = Normal tt
   <-> shadowFree obj = true /\ (Nat.max 1 (height obj) <= stack)%nat)
  /\ (snd (sanitizeObjectOn stack obj) = Normal tt ->
      fst (sanitizeObjectOn stack obj)
      = if isObject obj then sanitizeDeep obj else obj)
  /\ (forall err, snd (sanitizeObjectOn stack obj) = Throw err ->
        (err = TypeError "obj.hasOwnProperty is not a function"
         /\ shadowFree obj = false)
        \/ (err = RangeError "Maximum call stack size exceeded"
            /\ (stack < Nat.max 1 (height obj))%nat))
  /\ sameShape obj (fst (sanitizeObjectOn stack obj)).
Proof.
  split; [apply sanitizeObjectOn_returns|].
  split; [|split; [|apply sanitizeObjectOn_sameShape]].
  - intros H. rewrite (sanitizeObjectOn_normal _ _ H).
    apply sanitizeObjectOn_returns in H as [Hfree _].
    now rewrite (sanitizeObject_shadowFree obj Hfree).
  - intros err H.
    destruct (sanitizeObjectOn_throw _ _ _ H) as [[-> Hshadow] | ->];
      [now left | right].
    split; [reflexivity|].
    destruct (Nat.le_gt_cases (Nat.max 1 (height obj)) stack) as [Hle|Hgt];
      [|exact Hgt].
    rewrite (sanitizeObjectOn_enough obj stack Hle) in H.
    destruct (shadowFree obj) eqn:Hfree.
    + rewrite (sanitizeObject_shadowFree obj Hfree) in H. discriminate.
    + rewrite (sanitizeObject_shadowed obj Hfree) in H. discriminate.
Qed.

Example sanitizeObjectOn_partial_assignment :
  sanitizeObjectOn 1
    (VObject [(lit "s", VString (lit "javascript:a"));
              (lit "l", VArray [VString (lit "onclick=b")]);
              (lit "t", VString (lit "javascript:c"))])
  = (VObject [(lit "s", VString (lit "a"));
              (lit "l", VArray [VString (lit "onclick=b")]);
              (lit "t", VString (lit "javascript:c"))],
     Throw (RangeError "Maximum call stack size exceeded")).
Proof. vm_compute. reflexivity. Qed.

(** *** The middleware on a bounded call stack *)

Lemma securityMiddleware_guardWith (req : Request) (res : Response) :
  securityMiddleware req res
  = guardWith (fun b => getObjectDepth b 0) sanitizeObject req res.
Proof. reflexivity. Qed.

(** Once [getObjectDepth] has returned a depth within the limit, eleven
    frames are enough for [sanitizeObject]. *)
Lemma sanitizeObjectOn_after_depth_check (depthStack sanitizeStack : nat)
  (b : value) (d : nat) :
  (11 <= sanitizeStack)%nat -> isObject b = true ->
  getObjectDepthOn depthStack b 0 = Normal d -> (d <= MAX_DEPTH)%nat ->
  sanitizeObjectOn sanitizeStack b = (sanitizeDeep b, Normal tt).
Proof.
  unfold MAX_DEPTH. intros Hstack Hobj Hd Hle.
  apply getObjectDepthOn_normal in Hd as (Hfree & _ & ->).
  destruct (nestingDepth_height b 0) as [_ Hh].
  rewrite sanitizeObjectOn_enough by lia.
  now rewrite (sanitizeObject_shadowFree b Hfree), Hobj.
Qed.

Lemma securityMiddlewareOn_checks_passed (depthStack sanitizeStack : nat)
  (req : Request) (res : Response) :
  (11 <= sanitizeStack)%nat -> sizeAccepted req -> typeAccepted req ->
  securityMiddlewareOn depthStack sanitizeStack req res
  = if isObject (body req) then
      match getObjectDepthOn depthStack (body req) 0 with
      | Throw e =>
          {| completed := Throw e; request := req; response := res;
             nextCalled := false |}
      | Normal depth =>
          if (MAX_DEPTH <? depth)%nat then reject req res 400 payloadTooDeep
          else finish (withBody req (sanitizeDeep (body req))) res
      end
    else finish req res.
Proof.
  unfold sizeAccepted, typeAccepted, allowedType. intros Hstack Hs Ht.
  unfold securityMiddlewareOn, guardWith. rewrite Hs, Ht.
  destruct (isObject (body req)) eqn:Hobj; [|reflexivity].
  destruct (getObjectDepthOn depthStack (body req) 0) as [d|e] eqn:Hd;
    [|reflexivity].
  destruct (Nat.ltb_spec MAX_DEPTH d); [reflexivity|].
  now rewrite (sanitizeObjectOn_after_depth_check depthStack sanitizeStack
                 (body req) d Hstack Hobj Hd) by lia.
Qed.

(** The ways a call can end when [sanitizeObject] finds eleven frames. *)
Lemma securityMiddlewareOn_cases (depthStack sanitizeStack : nat)
  (req : Request) (res : Response) :
  (11 <= sanitizeStack)%nat ->
  (gt (contentLengthOf req) MAX_SIZE = true
   /\ securityMiddlewareOn depthStack sanitizeStack req res
      = reject req res 413 payloadTooLarge)
  \/ (sizeAccepted req /\ ~ typeAccepted req
      /\ securityMiddlewareOn depthStack sanitizeStack req res
         = reject req res 415 payloadUnsupported)
  \/ (sizeAccepted req /\ typeAccepted req /\ isObject (body req) = true
      /\ exists d, getObjectDepthOn depthStack (body req) 0 = Normal d
         /\ (MAX_DEPTH < d)%nat
         /\ securityMiddlewareOn depthStack sanitizeStack req res
            = reject req res 400 payloadTooDeep)
  \/ (sizeAccepted req /\ typeAccepted req /\ isObject (body req) = true
      /\ exists e, getObjectDepthOn depthStack (body req) 0 = Throw e
         /\ securityMiddlewareOn depthStack sanitizeStack req res
            = {| completed := Throw e; request := req; response := res;
                 nextCalled := false |})
  \/ (sizeAccepted req /\ typeAccepted req
      /\ (isObject (body req) = true ->
          exists d, getObjectDepthOn depthStack (body req) 0 = Normal d
                    /\ (d <= MAX_DEPTH)%nat)
      /\ securityMiddlewareOn depthStack sanitizeStack req res
         = finish (if isObject (body req)
                   then withBody req (sanitizeDeep (body req)) else req) res).
Proof.
  intros Hstack.
  destruct (gt (contentLengthOf req) MAX_SIZE) eqn:Hs.
  { left. split; [reflexivity|].
    unfold securityMiddlewareOn, guardWith. now rewrite Hs. }
  right.
  destruct (truthy (contentTypeOf req) && negb (allowedType (contentTypeOf req)))
    eqn:Ht.
  { left. assert (~ typeAccepted req) by (unfold typeAccepted; congruence).
    repeat split; try assumption.
    unfold securityMiddlewareOn, guardWith. rewrite Hs.
    unfold allowedType in Ht. now rewrite Ht. }
  right.
  rewrite (securityMiddlewareOn_checks_passed _ _ req res Hstack Hs Ht).
  destruct (isObject (body req)) eqn:Hobj.
  - destruct (getObjectDepthOn depthStack (body req) 0) as [d|e] eqn:Hd.
    + destruct (Nat.ltb_spec MAX_DEPTH d).
      * left. repeat split; try assumption. exists d. auto.
      * right; right. repeat split; try assumption. intros _. exists d. auto.
    + right; left. repeat split; try assumption. exists e. auto.
  - right; right. repeat split; try assumption. discriminate.
Qed.

(** X7: when the middleware throws.  With eleven frames left for
    [sanitizeObject], a call throws exactly when the request passes the
    size check and the content-type check, its body is an object, and
    either some mapping in the body has an own property named
    hasOwnProperty or the body is nested deeper than [getObjectDepth]
    has frames.  The error is then the TypeError, respectively the
    RangeError, thrown inside [getObjectDepth]: the body has not been
    touched, nothing has been written to the response and next has not
    been called. *)
Theorem securityMiddlewareOn_throws (depthStack sanitizeStack : nat)
  (req : Request) (res : Response) :
  (11 <= sanitizeStack)%nat ->
  ((exists err,
       completed (securityMiddlewareOn depthStack sanitizeStack req res)
       = Throw err)
   <-> sizeAccepted req /\ typeAccepted req /\ isObject (body req) = true
       /\ (shadowFree (body req) = false
           \/ (depthStack < depthFrames (body req))%nat))
  /\ (forall err,
        completed (securityMiddlewareOn depthStack sanitizeStack req res)
        = Throw err ->
        ((err = TypeError "obj.hasOwnProperty is not a function"
          /\ shadowFree (body req) = false)
         \/ (err = RangeError "Maximum call stack size exceeded"
             /\ (depthStack < depthFrames (body req))%nat))
        /\ request (securityMiddlewareOn depthStack sanitizeStack req res) = req
        /\ response (securityMiddlewareOn depthStack sanitizeStack req res) = res
        /\ nextCalled (securityMiddlewareOn depthStack sanitizeStack req res)
           = false).
Proof.
  intros Hstack.
  assert (Hthrow : forall err,
    completed (securityMiddlewareOn depthStack sanitizeStack req res)
    = Throw err ->
    sizeAccepted req /\ typeAccepted req /\ isObject (body req) = true
    /\ getObjectDepthOn depthStack (body req) 0 = Throw err
    /\ securityMiddlewareOn depthStack sanitizeStack req res
       = {| completed := Throw err; request := req; response := res;
            nextCalled := false |}).
  { intros err.
    destruct (securityMiddlewareOn_cases depthStack sanitizeStack req res Hstack)
      as [[_ ->]|[(_ & _ & ->)|[(_ & _ & _ & d & _ & _ & ->)
         |[(Hs & Ht & Hobj & e & He & ->)|(_ & _ & _ & ->)]]]];
      cbn [completed reject finish]; try discriminate.
    intros [= ->]. auto. }
  split; [split|].
  - intros [err H]. destruct (Hthrow err H) as (Hs & Ht & Hobj & Hd & _).
    repeat split; try assumption.
    destruct (getObjectDepthOn_throw _ _ _ _ Hd) as [[_ ?]|[_ ?]]; auto.
  - intros (Hs & Ht & Hobj & Hwhy).
    rewrite (securityMiddlewareOn_checks_passed _ _ req res Hstack Hs Ht), Hobj.
    destruct (getObjectDepthOn depthStack (body req) 0) as [d|e] eqn:Hd.
    + apply getObjectDepthOn_normal in Hd as (Hfree & Hle & _).
      destruct Hwhy as [Hshadow|Hlt]; [congruence | lia].
    + exists e. reflexivity.
  - intros err H. destruct (Hthrow err H) as (_ & _ & _ & Hd & ->).
    split; [|now cbn].
    destruct (getObjectDepthOn_throw _ _ _ _ Hd) as [[-> ?]|[-> ?]]; auto.
Qed.

Lemma securityMiddlewareOn_throws_witness :
  completed
    (securityMiddlewareOn 3 11
       (mkRequest [("content-type", lit "application/json")] (nested 3 VNull))
       freshResponse)
  = Throw (RangeError "Maximum call stack size exceeded")
  /\ request
       (securityMiddlewareOn 3 11
          (mkRequest [("content-type", lit "application/json")] (nested 3 VNull))
          freshResponse)
     = mkRequest [("content-type", lit "application/json")] (nested 3 VNull).
Proof.
  pose proof (securityMiddlewareOn_throws 3 11
                (mkRequest [("content-type", lit "application/json")]
                   (nested 3 VNull))
                freshResponse ltac:(lia)) as [_ H].
  specialize (H (RangeError "Maximum call stack size exceeded")
                ltac:(vm_compute; reflexivity)).
  split; [vm_compute; reflexivity | apply H].
Defined.

(** X11: when the middleware calls next.  With twelve frames left for
    [getObjectDepth] and eleven for [sanitizeObject], a call reaches
    next exactly when the request passes the size check and the
    content-type check and, if its body is an object, no mapping in the
    body has an own property named hasOwnProperty and the body is
    nested no deeper than 10.  The call has then set
    X-Content-Type-Options to nosniff and X-RateLimit-Limit to 100,
    has called neither status nor json, has left the request headers
    alone, and the body is the one it received with every string in it
    sanitized (a body that is not an object is the one it received). *)
Theorem securityMiddlewareOn_passes_exactly (depthStack sanitizeStack : nat)
  (req : Request) (res : Response) :
  (12 <= depthStack)%nat -> (11 <= sanitizeStack)%nat ->
  (passed (securityMiddlewareOn depthStack sanitizeStack req res)
   <-> sizeAccepted req /\ typeAccepted req
       /\ (isObject (body req) = true ->
           shadowFree (body req) = true
           /\ (nestingDepth 0 (body req) <= 10)%nat))
  /\ (passed (securityMiddlewareOn depthStack sanitizeStack req res) ->
      responseHeaders
        (response (securityMiddlewareOn depthStack sanitizeStack req res))
        !! "X-Content-Type-Options" = Some (lit "nosniff")
      /\ responseHeaders
           (response (securityMiddlewareOn depthStack sanitizeStack req res))
           !! "X-RateLimit-Limit" = Some (lit "100")
      /\ statusCode
           (response (securityMiddlewareOn depthStack sanitizeStack req res))
         = statusCode res
      /\ jsonSent
           (response (securityMiddlewareOn depthStack sanitizeStack req res))
         = jsonSent res
      /\ headers
           (request (securityMiddlewareOn depthStack sanitizeStack req res))
         = headers req
      /\ body (request (securityMiddlewareOn depthStack sanitizeStack req res))
         = if isObject (body req) then sanitizeDeep (body req) else body req).
Proof.
  intros Hdepth Hstack.
  assert (Hpassed :
    passed (securityMiddlewareOn depthStack sanitizeStack req res) ->
    sizeAccepted req /\ typeAccepted req
    /\ (isObject (body req) = true ->
        shadowFree (body req) = true /\ (nestingDepth 0 (body req) <= 10)%nat)
    /\ securityMiddlewareOn depthStack sanitizeStack req res
       = finish (if isObject (body req)
                 then withBody req (sanitizeDeep (body req)) else req) res).
  { unfold passed.
    destruct (securityMiddlewareOn_cases depthStack sanitizeStack req res Hstack)
      as [[_ ->]|[(_ & _ & ->)|[(_ & _ & _ & d & _ & _ & ->)
         |[(_ & _ & _ & e & _ & ->)|(Hs & Ht & Hd & ->)]]]];
      cbn [completed nextCalled reject finish];
      try (intros [_ Hn]; discriminate Hn);
      try (intros [Hc _]; discriminate Hc).
    intros _. split; [exact Hs|]. split; [exact Ht|]. split; [|reflexivity].
    intros Hobj. destruct (Hd Hobj) as (d & Hd' & Hle).
    apply getObjectDepthOn_normal in Hd' as (Hfree & _ & ->).
    split; [exact Hfree | exact Hle]. }
  split; [split|].
  - intros H. destruct (Hpassed H) as (Hs & Ht & Hb & _). auto.
  - intros (Hs & Ht & Hb).
    rewrite (securityMiddlewareOn_checks_passed _ _ req res Hstack Hs Ht).
    destruct (isObject (body req)) eqn:Hobj; [|split; reflexivity].
    destruct (Hb eq_refl) as [Hfree Hle].
    destruct (nestingDepth_height (body req) 0) as [_ Hh].
    destruct (depthFrames_height (body req)) as [_ Hf].
    rewrite (proj2 (getObjectDepthOn_normal depthStack (body req) 0
                      (nestingDepth 0 (body req))))
      by (repeat split; [exact Hfree | lia]).
    destruct (Nat.ltb_spec MAX_DEPTH (nestingDepth 0 (body req))) as [Hlt|_];
      [unfold MAX_DEPTH in Hlt; lia | split; reflexivity].
  - intros H. destruct (Hpassed H) as (_ & _ & _ & ->).
    destruct (finish_headers
                (if isObject (body req)
                 then withBody req (sanitizeDeep (body req)) else req) res)
      as [Hx Hr].
    split; [exact Hx|]. split; [exact Hr|].
    cbn [finish response request setHeader statusCode jsonSent].
    repeat split; destruct (isObject (body req)); reflexivity.
Qed.

Lemma securityMiddlewareOn_passes_exactly_witness :
  body
    (request
       (securityMiddlewareOn 12 11
          (mkRequest [("content-type", lit "application/json")]
             (VArray [VString (lit "javascript:a"); VNumber 1%float]))
          freshResponse))
  = VArray [VString (lit "a"); VNumber 1%float].
Proof.
  pose proof (securityMiddlewareOn_passes_exactly 12 11
                (mkRequest [("content-type", lit "application/json")]
                   (VArray [VString (lit "javascript:a"); VNumber 1%float]))
                freshResponse ltac:(lia) ltac:(lia)) as [_ H].
  destruct (H ltac:(vm_compute; split; reflexivity))
    as (_ & _ & _ & _ & _ & Hbody).
  rewrite Hbody. vm_compute. reflexivity.
Defined.

(** X12: the three exits of the middleware, whatever the call stack.
    A call that reaches next has returned and has called neither status
    nor json.  A call that throws has not reached next and has written
    nothing to the response.  A call that returns without reaching next
    has left the request as it was and has answered with one of the
    three rejections: 413, 415 or 400, each with its payload.  On no
    path are the request headers written. *)
Theorem securityMiddlewareOn_exits (depthStack sanitizeStack : nat)
  (req : Request) (res : Response) :
  headers (request (securityMiddlewareOn depthStack sanitizeStack req res))
  = headers req
  /\ (nextCalled (securityMiddlewareOn depthStack sanitizeStack req res) = true ->
      completed (securityMiddlewareOn depthStack sanitizeStack req res)
      = Normal tt
      /\ statusCode
           (response (securityMiddlewareOn depthStack sanitizeStack req res))
         = statusCode res
      /\ jsonSent
           (response (securityMiddlewareOn depthStack sanitizeStack req res))
         = jsonSent res)
  /\ (forall err,
        completed (securityMiddlewareOn depthStack sanitizeStack req res)
        = Throw err ->
        nextCalled (securityMiddlewareOn depthStack sanitizeStack req res)
        = false
        /\ response (securityMiddlewareOn depthStack sanitizeStack req res)
           = res)
  /\ (completed (securityMiddlewareOn depthStack sanitizeStack req res)
      = Normal tt ->
      nextCalled (securityMiddlewareOn depthStack sanitizeStack req res)
      = false ->
      request (securityMiddlewareOn depthStack sanitizeStack req res) = req
      /\ exists code payload,
           response (securityMiddlewareOn depthStack sanitizeStack req res)
           = json (status res code) payload
           /\ ((code = 413%Z /\ payload = payloadTooLarge)
               \/ (code = 415%Z /\ payload = payloadUnsupported)
               \/ (code = 400%Z /\ payload = payloadTooDeep))).
Proof.
  unfold securityMiddlewareOn, guardWith.
  destruct (gt (contentLengthOf req) MAX_SIZE).
  { cbn [reject request response completed nextCalled].
    repeat split; try discriminate.
    exists 413%Z, payloadTooLarge. auto. }
  destruct (truthy (contentTypeOf req) && _).
  { cbn [reject request response completed nextCalled].
    repeat split; try discriminate.
    exists 415%Z, payloadUnsupported. auto. }
  assert (Hfinish : forall r,
    headers r = headers req ->
    headers (request (finish r res)) = headers req
    /\ (nextCalled (finish r res) = true ->
        completed (finish r res) = Normal tt
        /\ statusCode (response (finish r res)) = statusCode res
        /\ jsonSent (response (finish r res)) = jsonSent res)
    /\ (forall err, completed (finish r res) = Throw err ->
          nextCalled (finish r res) = false /\ response (finish r res) = res)
    /\ (completed (finish r res) = Normal tt ->
        nextCalled (finish r res) = false ->
        request (finish r res) = req
        /\ exists code payload,
             response (finish r res) = json (status res code) payload
             /\ ((code = 413%Z /\ payload = payloadTooLarge)
                 \/ (code = 415%Z /\ payload = payloadUnsupported)
                 \/ (code = 400%Z /\ payload = payloadTooDeep)))).
  { intros r Hr. cbn [finish request response completed nextCalled setHeader
                        statusCode jsonSent].
    repeat split; try discriminate; exact Hr. }
  destruct (isObject (body req)); [|now apply Hfinish].
  destruct (getObjectDepthOn depthStack (body req) 0) as [d|e].
  - destruct (MAX_DEPTH <? d)%nat.
    { cbn [reject request response completed nextCalled].
      repeat split; try discriminate.
      exists 400%Z, payloadTooDeep. auto. }
    destruct (sanitizeObjectOn sanitizeStack (body req)) as [body' [u|e]];
      [now apply Hfinish|].
    cbn [request response completed nextCalled withBody headers].
    repeat split; try discriminate.
  - cbn [request response completed nextCalled].
    repeat split; try discriminate.
Qed.

End CallStackFacts.
